(** * Stock widget: the feed state of [frontend/app.js]

    A shallow embedding of the stream-state part of [app.js]: the quote
    store [latestPrices], the chart history buffer, the WebSocket handlers
    and the mock feed, followed by the properties of the specification.

    Conventions of the model.
    - A JavaScript number is an IEEE 754 binary64 double: Rocq's primitive
      [float], whose [+], [-], [*], [/], [abs] and comparisons are those
      of the processor and so of JavaScript, with their rounding, their
      infinities and [NaN]. What is proved of them rests on the
      specification of the primitives in [FloatAxioms] alone.
    - [latestPrices] is a JS object used as a map from symbol to quote:
      a [gmap string Quote], and [latestPrices st !! k] is the quote that
      [latestPrices[k]] reads. Where that read gives something that is not
      a quote (a method of [Object.prototype], as for ["toString"]) the
      map has no entry: such a value has no [price], and every test the
      code makes on it comes out as on a missing entry. The assignment
      [latestPrices["__proto__"] = item] makes [item] the prototype of the
      object where it gives every other key an own property: the reads
      agree with the map, the count of own keys does not, and an entry
      for that symbol is taken only with the five fields of a quote (its
      other fields would be read as entries of the store).
    - Calls into the view layer (status pill, alert card, table, chart,
      timers) are recorded, oldest first, in the [log] of the state.
    - The DOM elements the handlers write to are present.
    - A handler that throws returns [Threw] with the state it had reached. *)

From Stdlib Require Import ZArith Lia Floats.
From stdpp Require Import gmap strings list fin_maps.

Local Set Warnings "-register-all".
Local Set Warnings "-inexact-float".
Local Open Scope string_scope.
Local Open Scope list_scope.

(** ** Configuration *)

Definition TRACKED_SYMBOLS : list string := ["AAPL"; "TSLA"; "NVDA"; "MSFT"].

(** The alert threshold [1.5], the history capacity [20]. *)
Definition ALERT_DELTA : float := 1.5%float.
Definition HISTORY_CAP : nat := 20.

(** ** Data *)

(** An entry of [latestPrices]: [{symbol, price, change, percentChange, ts}]. *)
Record Quote := mkQuote {
  symbol : string;
  price : float;
  change : float;
  percentChange : float;
  ts : string
}.

(** An element of [chartHistory]: [{ts, price}]. *)
Record HistoryPoint := mkPoint {
  hp_ts : string;
  hp_price : float
}.

(** [chart.data]: the labels (one per point, the formatted [ts]; the model
    keeps the [ts] itself, its formatting is the locale's) and the data of
    the single dataset. *)
Record Chart := mkChart {
  labels : list string;
  dataset : list float
}.

(** The second argument of [addRecentAlert]: ["up"] or ["down"]. *)
Inductive Direction := up | down.

(** A table row written by [renderStocksTable]. *)
Record Row := mkRow {
  row_symbol : string;
  row_selected : bool;
  row_isUp : bool;
  row_price : float;
  row_change : float;
  row_percentChange : float;
  row_ts : string
}.

(** Calls that leave the feed state for the view layer. *)
Inductive Effect :=
  | SetWsStatus (state text : string)
  | SetChartLabel (sym : string)
  | AddRecentAlert (sym : string) (direction : Direction) (p : float)
  | RenderStocksTable (rows : list Row)
  | ChartUpdate (c : Chart)
  | SetInterval (ms : nat).

(** The module-level [let] variables, and the log of effects. *)
Record State := mkState {
  latestPrices : gmap string Quote;
  chart : option Chart;
  chartSymbol : string;
  chartHistory : list HistoryPoint;
  usingMockFeed : bool;
  log : list Effect
}.

(** What a handler run ends in: it returns, it throws, or (live messages
    only) its payload has entries that are not quotes, which the typed
    store of the model cannot hold. *)
Inductive Outcome :=
  | Done (st : State)
  | Threw (err : string) (st : State)
  | IllTyped.

(** A value produced by [JSON.parse]. *)
Inductive Json :=
  | JNull
  | JBool (b : bool)
  | JNum (q : float)
  | JStr (s : string)
  | JArr (items : list Json)
  | JObj (fields : list (string * Json)).

(** ** State updates *)

Definition set_latestPrices (m : gmap string Quote) (st : State) : State :=
  mkState m (chart st) (chartSymbol st) (chartHistory st) (usingMockFeed st) (log st).

Definition set_chart (c : option Chart) (st : State) : State :=
  mkState (latestPrices st) c (chartSymbol st) (chartHistory st) (usingMockFeed st) (log st).

Definition set_chartSymbol (s : string) (st : State) : State :=
  mkState (latestPrices st) (chart st) s (chartHistory st) (usingMockFeed st) (log st).

Definition set_chartHistory (h : list HistoryPoint) (st : State) : State :=
  mkState (latestPrices st) (chart st) (chartSymbol st) h (usingMockFeed st) (log st).

Definition set_usingMockFeed (b : bool) (st : State) : State :=
  mkState (latestPrices st) (chart st) (chartSymbol st) (chartHistory st) b (log st).

Definition emit (e : Effect) (st : State) : State :=
  mkState (latestPrices st) (chart st) (chartSymbol st) (chartHistory st)
          (usingMockFeed st) (log st ++ [e]).

(** ** Numbers *)

(** [Math.max(a, b)]: [NaN] when an argument is [NaN]; the larger one
    otherwise, [+0] counting as larger than [-0]. *)
Definition Math_max (a b : float) : float :=
  if is_nan a || is_nan b then nan
  else
    match classify a, classify b with
    | NZero, PZero => b
    | _, _ => if (a <? b)%float then b else a
    end.

(** The number of an array index. *)
Fixpoint ofNat (n : nat) : float :=
  match n with
  | O => 0%float
  | S k => (ofNat k + 1)%float
  end.

(** ** The stocks table *)

(** One pass of the [TRACKED_SYMBOLS.forEach] of [renderStocksTable]:
    no row when [latestPrices[symbol]] is missing. *)
Definition rowOf (st : State) (sym : string) : option Row :=
  match latestPrices st !! sym with
  | None => None
  | Some data =>
      Some (mkRow sym (bool_decide (sym = chartSymbol st))
                  (0 <=? change data)%float
                  (price data) (change data) (percentChange data) (ts data))
  end.

Definition stocksRows (st : State) : list Row :=
  omap (rowOf st) TRACKED_SYMBOLS.

Definition renderStocksTable (st : State) : State :=
  emit (RenderStocksTable (stocksRows st)) st.

(** ** The chart *)

(** [chartHistory.push(p); if (chartHistory.length > 20) chartHistory.shift();] *)
Definition pushPoint (h : list HistoryPoint) (p : HistoryPoint) : list HistoryPoint :=
  let h' := h ++ [p] in
  if (HISTORY_CAP <? List.length h')%nat then tail h' else h'.

Definition updateChart (sym : string) (st : State) : State :=
  match chart st with
  | None => st
  | Some _ =>
      match latestPrices st !! sym with
      | None => st
      | Some data =>
          let h := pushPoint (chartHistory st) (mkPoint (ts data) (price data)) in
          let c := mkChart (map hp_ts h) (map hp_price h) in
          emit (ChartUpdate c) (set_chart (Some c) (set_chartHistory h st))
      end
  end.

(** The click handler that [renderStocksTable] puts on the row of [sym]. *)
Definition clickRow (sym : string) (st : State) : State :=
  let st1 := emit (SetChartLabel sym) (set_chartHistory [] (set_chartSymbol sym st)) in
  updateChart (chartSymbol st1) (renderStocksTable st1).

(** ** The WebSocket handlers *)

Definition addRecentAlert (sym : string) (d : Direction) (p : float) (st : State) : State :=
  emit (AddRecentAlert sym d p) st.

(** The callback of [msg.data.forEach]:
    [prev && Math.abs(item.price - prev.price) >= 1.5], then
    [item.price > prev.price ? "up" : "down"]. For the symbol
    ["__proto__"] the insert stands for the change of prototype that the
    assignment makes: what [latestPrices["__proto__"]] reads afterwards is
    the entry, as in the map. *)
Definition onItem (item : Quote) (st : State) : State :=
  let prev := latestPrices st !! symbol item in
  let st1 := set_latestPrices (<[symbol item := item]> (latestPrices st)) st in
  match prev with
  | Some p =>
      if (ALERT_DELTA <=? abs (price item - price p))%float
      then addRecentAlert (symbol item)
             (if (price p <? price item)%float then up else down)
             (price item) st1
      else st1
  | None => st1
  end.

(** Property lookup [v.k] on a parsed value other than [null]; [None] is
    [undefined]. Only own properties: the keys read here (["type"],
    ["data"], the fields of a quote, the fields of a rule) are on no
    prototype. The fields of a parsed object have distinct keys. *)
Definition field (k : string) (fs : list (string * Json)) : option Json :=
  snd <$> find (fun kv => String.eqb (fst kv) k) fs.

Definition getProp (k : string) (v : Json) : option Json :=
  match v with
  | JObj fs => field k fs
  | _ => None
  end.

Definition asStr (v : option Json) : option string :=
  match v with Some (JStr s) => Some s | _ => None end.

Definition asNum (v : option Json) : option float :=
  match v with Some (JNum q) => Some q | _ => None end.

(** The fields of an entry that the page reads. *)
Definition quoteFields : list string :=
  ["symbol"; "price"; "change"; "percentChange"; "ts"].

Definition onlyQuoteFields (item : Json) : bool :=
  match item with
  | JObj fs => forallb (fun kv => bool_decide (fst kv ∈ quoteFields)) fs
  | _ => true
  end.

(** An entry of [msg.data] read as a quote of the wire format: [symbol]
    and [ts] strings, [price], [change] and [percentChange] numbers. The
    page stores the entry itself and reads these five fields of it, so
    any further field is dropped here; but not for the symbol
    ["__proto__"], whose entry becomes the prototype of [latestPrices]
    and shows its further fields as entries of the store: such an entry
    is a quote only when it has no further field. *)
Definition asQuote (item : Json) : option Quote :=
  s ← asStr (getProp "symbol" item);
  p ← asNum (getProp "price" item);
  c ← asNum (getProp "change" item);
  pc ← asNum (getProp "percentChange" item);
  t ← asStr (getProp "ts" item);
  if String.eqb s "__proto__" && negb (onlyQuoteFields item) then None
  else Some (mkQuote s p c pc t).

(** [msg.type !== "price_update"] *)
Definition isPriceUpdate (t : option Json) : bool :=
  match t with
  | Some (JStr s) => String.eqb s "price_update"
  | _ => false
  end.

(** The ["message"] listener; [parsed] is the result of
    [JSON.parse(event.data)], [None] when it throws. *)
Definition onMessage (parsed : option Json) (st : State) : Outcome :=
  match parsed with
  | None => Done st
  | Some JNull => Threw "TypeError" st
  | Some msg =>
      if negb (isPriceUpdate (getProp "type" msg)) then Done st
      else
        match getProp "data" msg with
        | Some (JArr items) =>
            match mapM asQuote items with
            | Some quotes =>
                let st1 := foldl (fun s item => onItem item s) st quotes in
                Done (updateChart (chartSymbol st1) (renderStocksTable st1))
            | None => IllTyped
            end
        | _ => Threw "TypeError" st
        end
  end.

Definition setWsStatus (state text : string) (st : State) : State :=
  emit (SetWsStatus state text) st.

Definition onOpen (st : State) : State :=
  setWsStatus "connected" "LIVE DATA: CONNECTED" (set_usingMockFeed false st).

(** ** The mock feed *)

(** [{symbol: sym, price: 100 + idx * 50, change: 0, percentChange: 0, ts: now}] *)
Definition seedQuote (now : string) (idx : nat) (sym : string) : Quote :=
  mkQuote sym (100 + ofNat idx * 50)%float 0%float 0%float now.

(** [TRACKED_SYMBOLS.forEach((sym, idx) => latestPrices[sym] = {...})] *)
Fixpoint seedEach (now : string) (idx : nat) (syms : list string)
    (m : gmap string Quote) : gmap string Quote :=
  match syms with
  | [] => m
  | sym :: rest => seedEach now (S idx) rest (<[sym := seedQuote now idx sym]> m)
  end.

(** [startMockFeed], up to and with the [setInterval] call; [now] is
    [new Date().toISOString()]. *)
Definition startMockFeed (now : string) (st : State) : State :=
  let st1 := setWsStatus "error" "LIVE DATA: DEMO" (set_usingMockFeed true st) in
  let st2 :=
    if (size (latestPrices st1) =? 0)%nat then
      let st' := set_latestPrices (seedEach now 0 TRACKED_SYMBOLS (latestPrices st1)) st1 in
      updateChart (chartSymbol st') (renderStocksTable st')
    else st1 in
  emit (SetInterval 2500) st2.

Definition onClose (now : string) (st : State) : State :=
  if negb (usingMockFeed st) then startMockFeed now st else st.

Definition onError (now : string) (st : State) : State :=
  if negb (usingMockFeed st) then startMockFeed now st else st.

(** The quote a tick writes for [sym] over [prev]; [r] is the draw of
    [Math.random()]:
    [delta = (Math.random() - 0.5) * 4],
    [newPrice = Math.max(1, prev.price + delta)],
    [change = newPrice - prev.price],
    [percentChange = (change / prev.price) * 100]. *)
Definition tickQuote (now : string) (r : float) (sym : string) (prev : Quote) : Quote :=
  let delta := ((r - 0.5) * 4)%float in
  let newPrice := Math_max 1 (price prev + delta)%float in
  let change := (newPrice - price prev)%float in
  let percentChange := ((change / price prev) * 100)%float in
  mkQuote sym newPrice change percentChange now.

(** The callback of the [TRACKED_SYMBOLS.forEach] of the interval; [r] is
    its draw of [Math.random()]. Reading [prev.price] of a missing entry
    throws. The alert test is [Math.abs(change) >= 1.5], the direction
    [change > 0 ? "up" : "down"]. *)
Definition tickSymbol (now : string) (r : float) (sym : string) (st : State) : Outcome :=
  match latestPrices st !! sym with
  | None => Threw "TypeError" st
  | Some prev =>
      let q := tickQuote now r sym prev in
      let st1 := set_latestPrices (<[sym := q]> (latestPrices st)) st in
      Done (if (ALERT_DELTA <=? abs (change q))%float
            then addRecentAlert sym (if (0 <? change q)%float then up else down) (price q) st1
            else st1)
  end.

(** The [forEach] of one tick; the [idx]-th call of [Math.random()] in the
    tick returns [rnd idx]. A throw in a callback ends the loop. *)
Fixpoint tickEach (now : string) (rnd : nat -> float) (idx : nat) (syms : list string)
    (st : State) : Outcome :=
  match syms with
  | [] => Done st
  | sym :: rest =>
      match tickSymbol now (rnd idx) sym st with
      | Done st1 => tickEach now rnd (S idx) rest st1
      | o => o
      end
  end.

(** The interval callback of [startMockFeed]. *)
Definition tick (now : string) (rnd : nat -> float) (st : State) : Outcome :=
  match tickEach now rnd 0 TRACKED_SYMBOLS st with
  | Done st1 => Done (updateChart (chartSymbol st1) (renderStocksTable st1))
  | o => o
  end.

(** [connectWebSocket]: [new WebSocket(WS_URL)] throws and the [catch]
    starts the mock feed, or the four listeners below are attached. *)
Definition connectWebSocket (ctorThrows : bool) (now : string) (st : State) : State :=
  if ctorThrows then startMockFeed now st else st.

(** ** The event loop *)

(** The state when [connectWebSocket] is called: [initChart] has made the
    chart, or has not (no Chart.js, no canvas). *)
Definition initial (hasChart : bool) : State :=
  mkState ∅ (if hasChart then Some (mkChart [] []) else None) "AAPL" [] false [].

Inductive Action :=
  | Connect (ctorThrows : bool) (now : string)
  | Open
  | Message (parsed : option Json)
  | Close (now : string)
  | Error (now : string)
  | Tick (now : string) (rnd : nat -> float)
  | Click (sym : string).

Definition step (a : Action) (st : State) : Outcome :=
  match a with
  | Connect ctorThrows now => Done (connectWebSocket ctorThrows now st)
  | Open => Done (onOpen st)
  | Message parsed => onMessage parsed st
  | Close now => Done (onClose now st)
  | Error now => Done (onError now st)
  | Tick now rnd => tick now rnd st
  | Click sym => Done (clickRow sym st)
  end.

(** The state a handler leaves behind, also when it threw. *)
Definition after (o : Outcome) : option State :=
  match o with
  | Done st => Some st
  | Threw _ st => Some st
  | IllTyped => None
  end.

(** States the page can get to. Every action is taken as possible in every
    state (a tick before any timer, a click on a row not drawn): more
    states than the page has. *)
Inductive reachable : State -> Prop :=
  | reach_initial hasChart : reachable (initial hasChart)
  | reach_step a st st' :
      reachable st -> after (step a st) = Some st' -> reachable st'.

(** Runs the handlers of [acts] in order; a handler that threw does not
    stop the loop. *)
Fixpoint run (acts : list Action) (st : State) : option State :=
  match acts with
  | [] => Some st
  | a :: rest =>
      match after (step a st) with
      | Some st1 => run rest st1
      | None => None
      end
  end.

(** ** The wire format, written out *)

(** The entry of a [price_update] message for a quote, and the message
    for a list of quotes. *)
Definition quoteJson (q : Quote) : Json :=
  JObj [("symbol", JStr (symbol q)); ("price", JNum (price q));
        ("change", JNum (change q)); ("percentChange", JNum (percentChange q));
        ("ts", JStr (ts q))].

Definition priceUpdate (quotes : list Quote) : Json :=
  JObj [("type", JStr "price_update"); ("data", JArr (map quoteJson quotes))].

(** ** Vocabulary of the properties *)

(** A previous quote exists and
    [Math.abs(next.price - previous.price) >= 1.5]. *)
Definition alertDue (previous : option Quote) (next : Quote) : Prop :=
  exists p, previous = Some p /\
            (ALERT_DELTA <=? abs (price next - price p))%float = true.

(** [up] exactly when [next.price > previous.price], [down] otherwise. *)
Definition directionOf (p next : Quote) (d : Direction) : Prop :=
  ((price p <? price next)%float = true /\ d = up) \/
  ((price p <? price next)%float = false /\ d = down).

(** What the alert check of [previous] and [next] is to emit: one alert
    for [next] when one is due, nothing otherwise. *)
Definition alertChecked (previous : option Quote) (next : Quote)
    (emitted : list Effect) : Prop :=
  (alertDue previous next /\
   exists p d, previous = Some p /\ directionOf p next d /\
               emitted = [AddRecentAlert (symbol next) d (price next)])
  \/ (~ alertDue previous next /\ emitted = []).


(** [SetInterval] calls and switches of the status pill to the demo feed
    in a log. *)
Definition isSetInterval (e : Effect) : bool :=
  match e with SetInterval _ => true | _ => false end.

Definition isFallbackStatus (e : Effect) : bool :=
  match e with
  | SetWsStatus state _ => String.eqb state "error"
  | _ => false
  end.

Definition count (f : Effect -> bool) (l : list Effect) : nat :=
  List.length (List.filter f l).

(** The ["close"] and ["error"] events of the socket. *)
Definition isFailure (a : Action) : bool :=
  match a with Close _ | Error _ => true | _ => false end.

(** A parsed value whose [type] is not the string ["price_update"]: it
    has another [type], or none (an object without the field, a number, a
    string, a boolean, an array, [null]). *)
Definition notPriceUpdate (msg : Json) : Prop :=
  isPriceUpdate (getProp "type" msg) = false.

(** ** The page as the user drives it *)

(** A click needs a row, and [renderStocksTable] draws rows only for
    tracked symbols that have a quote; no handler ever removes a quote. *)
Definition rowDrawn (st : State) (sym : string) : Prop :=
  sym ∈ TRACKED_SYMBOLS /\ is_Some (latestPrices st !! sym).



(** The outcomes of the handlers of [acts], run in order as by [run]. *)
Fixpoint outcomes (acts : list Action) (st : State) : list Outcome :=
  match acts with
  | [] => []
  | a :: rest =>
      step a st ::
      match after (step a st) with
      | Some st1 => outcomes rest st1
      | None => []
      end
  end.

Definition isTick (a : Action) : bool :=
  match a with Tick _ _ => true | _ => false end.



Definition isDone (o : Outcome) : bool :=
  match o with Done _ => true | _ => false end.

Definition isThrew (o : Outcome) : bool :=
  match o with Threw _ _ => true | _ => false end.

(** The [setWsStatus] calls of a log, oldest first. *)
Definition statusOf (e : Effect) : option (string * string) :=
  match e with
  | SetWsStatus state text => Some (state, text)
  | _ => None
  end.

Definition statusEffects (l : list Effect) : list (string * string) :=
  omap statusOf l.

Definition isAddRecentAlert (e : Effect) : bool :=
  match e with AddRecentAlert _ _ _ => true | _ => false end.

(** The last entry for [sym] in the payload of a message. *)
Definition lastFor (sym : string) (quotes : list Quote) : option Quote :=
  last (filter (fun q => symbol q = sym) quotes).

(** A handler is quiet when it leaves the flag and the status calls alone. *)
Definition quietStep (st st' : State) : Prop :=
  usingMockFeed st' = usingMockFeed st /\
  statusEffects (log st') = statusEffects (log st).

(** The flag and the last status call of the log agree. *)
Definition statusAgrees (st : State) : Prop :=
  (usingMockFeed st = true ->
   last (statusEffects (log st)) = Some ("error", "LIVE DATA: DEMO")) /\
  (usingMockFeed st = false ->
   last (statusEffects (log st)) = None \/
   last (statusEffects (log st)) = Some ("connected", "LIVE DATA: CONNECTED")).

(** The events of a socket that never opens (or has opened before), and
    of the page: all but ["open"] and the call of [connectWebSocket]. *)
Definition noReopen (a : Action) : bool :=
  match a with
  | Open => false
  | Connect _ _ => false
  | _ => true
  end.

(** ** The status pill *)

(** [wsStatusPill]: its class list and its text. *)
Record Pill := mkPill {
  classList : list string;
  textContent : string
}.

(** [classList.remove(...cs)] and [classList.add(c)]. *)
Definition classRemove (cs : list string) (l : list string) : list string :=
  filter (fun c => c ∉ cs) l.

Definition classAdd (c : string) (l : list string) : list string :=
  if bool_decide (c ∈ l) then l else l ++ [c].

(** [setWsStatus(state, text)] on the pill. *)
Definition setWsStatusPill (state text : string) (pill : Pill) : Pill :=
  let l := classRemove ["pill-connected"; "pill-disconnected"] (classList pill) in
  let l' :=
    if String.eqb state "connected" then classAdd "pill-connected" l
    else if String.eqb state "error" then classAdd "pill-disconnected" l
    else l in
  mkPill l' text.

(** The pill after the [setWsStatus] calls of a log. *)
Definition pillAfter (l : list Effect) (pill : Pill) : Pill :=
  foldl (fun p st => setWsStatusPill (fst st) (snd st) p) pill (statusEffects l).

(** ** The recent alerts card *)

(** A child of [recentAlertsContainer]: the placeholder
    ([div.alerts-placeholder]) or an alert ([div.alert-item]) with what
    its text is made of. An alert has no placeholder inside it. *)
Inductive AlertChild :=
  | Placeholder
  | AlertItem (sym : string) (d : Direction) (p : float) (timeLabel : string).

Definition isPlaceholder (c : AlertChild) : bool :=
  match c with Placeholder => true | AlertItem _ _ _ _ => false end.

(** [ensureAlertsPlaceholder] *)
Definition ensureAlertsPlaceholder (children : list AlertChild) : list AlertChild :=
  if (List.length children =? 0)%nat then children ++ [Placeholder] else children.

(** [querySelector(".alerts-placeholder")] finds the first one, [remove]
    takes it out. *)
Fixpoint removePlaceholder (children : list AlertChild) : list AlertChild :=
  match children with
  | [] => []
  | c :: rest => if isPlaceholder c then rest else c :: removePlaceholder rest
  end.

(** [while (children.length > 6) removeChild(lastChild)], with the count of
    turns it may take. *)
Fixpoint trimAlerts (turns : nat) (children : list AlertChild) : list AlertChild :=
  match turns with
  | O => children
  | S turns' =>
      if (6 <? List.length children)%nat
      then trimAlerts turns' (removelast children)
      else children
  end.

Section AlertsCard.

(** [formatTime(ts)] for a given instant: the locale's. *)
Variable formatTime : string -> string.

(** [addRecentAlert(symbol, direction, price, triggeredAt)] on the
    children of the card; [triggeredAt] is [None] when the argument is
    left out, [now] is the clock that [formatTime()] reads. *)
Definition addRecentAlertCard (now : string) (sym : string) (d : Direction) (p : float)
    (triggeredAt : option string) (children : list AlertChild) : list AlertChild :=
  let children1 := removePlaceholder children in
  let timeLabel :=
    match triggeredAt with
    | Some t => if String.eqb t "" then formatTime now else formatTime t
    | None => formatTime now
    end in
  let children2 := AlertItem sym d p timeLabel :: children1 in
  trimAlerts (List.length children2) children2.

End AlertsCard.

(** A call of [addRecentAlert]: the clock when it runs and its arguments. *)
Record AlertCall := mkAlertCall {
  ac_now : string;
  ac_sym : string;
  ac_dir : Direction;
  ac_price : float;
  ac_at : option string
}.

(** The calls of [calls], oldest first, on the children of the card. *)
Definition addRecentAlerts (formatTime : string -> string) (calls : list AlertCall)
    (children : list AlertChild) : list AlertChild :=
  foldl (fun ch c =>
           addRecentAlertCard formatTime (ac_now c) (ac_sym c) (ac_dir c)
                              (ac_price c) (ac_at c) ch)
        children calls.

(** The child that a call puts into the card. *)
Definition alertItemOf (formatTime : string -> string) (c : AlertCall) : AlertChild :=
  AlertItem (ac_sym c) (ac_dir c) (ac_price c)
            (match ac_at c with
             | Some t => if String.eqb t "" then formatTime (ac_now c) else formatTime t
             | None => formatTime (ac_now c)
             end).

(** [initRecentAlertsCard] on the empty container of the page. *)
Definition initRecentAlertsCard : list AlertChild := ensureAlertsPlaceholder [].

(** ** The theme *)

(** The [data-theme] attribute of the document element ([None]: not set),
    the text of the toggle button, the ["theme"] item of [localStorage]
    ([None]: no item). *)
Record ThemePage := mkThemePage {
  dataTheme : option string;
  toggleText : string;
  storedTheme : option string
}.

(** [v || "dark"] for what [getItem] and [getAttribute] return. *)
Definition orDark (v : option string) : string :=
  match v with
  | Some s => if String.eqb s "" then "dark" else s
  | None => "dark"
  end.

(** [applyTheme]; its call of [refreshChartColors] recolours the chart
    from the style sheet and touches nothing kept here. *)
Definition applyTheme (theme : string) (pg : ThemePage) : ThemePage :=
  mkThemePage (Some theme)
              (if String.eqb theme "dark" then "Dark mode" else "Light mode")
              (storedTheme pg).

Definition initTheme (pg : ThemePage) : ThemePage :=
  applyTheme (orDark (storedTheme pg)) pg.

(** The click listener of the toggle button. *)
Definition toggleTheme (pg : ThemePage) : ThemePage :=
  let current := orDark (dataTheme pg) in
  let next := if String.eqb current "dark" then "light" else "dark" in
  let pg1 := applyTheme next pg in
  mkThemePage (dataTheme pg1) (toggleText pg1) (Some next).

(** ** The alert rules list *)

(** Truthiness of a property value ([None]: [undefined]; the numbers 0,
    -0 and [NaN] are falsy), and the test of [??]. *)
Definition truthy (v : option Json) : bool :=
  match v with
  | None => false
  | Some JNull => false
  | Some (JBool b) => b
  | Some (JNum q) => negb (q =? 0)%float && negb (is_nan q)
  | Some (JStr s) => negb (String.eqb s "")
  | Some (JArr _) => true
  | Some (JObj _) => true
  end.

Definition nullish (v : option Json) : bool :=
  match v with
  | None => true
  | Some JNull => true
  | _ => false
  end.

(** [a || b] and [a ?? b] *)
Definition orElse (a b : option Json) : option Json := if truthy a then a else b.
Definition coalesce (a b : option Json) : option Json := if nullish a then b else a.

(** Conversion to a string, as the template literal and ["· " + v] do
    it, throws on an object that has an own [toString] property: the
    value under it, coming from JSON, cannot be called, and [valueOf]
    gives no primitive. An array converts its elements, [null] to the
    empty string. *)
Fixpoint toStringThrows (v : Json) : bool :=
  match v with
  | JObj fs =>
      match field "toString" fs with
      | Some _ => true
      | None => false
      end
  | JArr items => existsb toStringThrows items
  | _ => false
  end.

Definition converts (v : option Json) : bool :=
  match v with
  | Some j => negb (toStringThrows j)
  | None => true
  end.

(** What the template of [renderSingleRule] interpolates: the symbol, the
    direction (a string, shown in upper case; empty when there is none),
    the threshold, the two flags, the note and the id when shown. *)
Record RuleView := mkRuleView {
  rv_symbol : option Json;
  rv_direction : string;
  rv_threshold : option Json;
  rv_active : bool;
  rv_sendWebex : bool;
  rv_note : option Json;
  rv_id : option Json
}.

Inductive RuleOutcome :=
  | Rendered (v : RuleView)
  | RuleThrew (err : string).

(** [renderSingleRule(rule)]. Reading a property of [null] throws, and so
    do [direction.toUpperCase()] on a truthy direction that is not a
    string and the conversion to a string of a symbol, a threshold, a
    truthy note or a truthy id that does not convert: a [TypeError] each
    time. *)
Definition renderSingleRule (rule : Json) : RuleOutcome :=
  match rule with
  | JNull => RuleThrew "TypeError"
  | _ =>
      let get k := getProp k rule in
      let symbol := orElse (get "symbol") (orElse (get "ticker") (Some (JStr "N/A"))) in
      let direction :=
        orElse (get "direction")
          (orElse (get "condition")
             (orElse (get "operator")
                (Some (JStr (if truthy (get "above") then "above"
                             else if truthy (get "below") then "below"
                             else ""))))) in
      let threshold :=
        coalesce (get "threshold")
          (coalesce (get "price")
             (coalesce (get "target_price")
                (coalesce (get "trigger_price") (Some (JStr ""))))) in
      let active := coalesce (get "active") (coalesce (get "is_active") (Some (JBool true))) in
      let sendWebex :=
        coalesce (get "webex_enabled")
          (coalesce (get "send_webex") (coalesce (get "notify") (Some (JBool false)))) in
      let note := if truthy (get "note") then get "note" else None in
      let id := if truthy (get "id") then get "id" else None in
      let view dir :=
        Rendered (mkRuleView symbol dir threshold (truthy active) (truthy sendWebex)
                    note id) in
      if negb (converts symbol && converts threshold && converts note && converts id)
      then RuleThrew "TypeError"
      else if truthy direction then
        match direction with
        | Some (JStr s) => view s
        | _ => RuleThrew "TypeError"
        end
      else view ""
  end.

(** [STATIC_ALERT_RULES] *)
Definition STATIC_ALERT_RULES : list Json :=
  [JObj [("id", JNum 1); ("symbol", JStr "AAPL"); ("direction", JStr "above");
         ("threshold", JNum 200); ("active", JBool true);
         ("webex_enabled", JBool true)];
   JObj [("id", JNum 2); ("symbol", JStr "TSLA"); ("direction", JStr "above");
         ("threshold", JNum 180); ("active", JBool true);
         ("webex_enabled", JBool true)];
   JObj [("id", JNum 3); ("symbol", JStr "NVDA"); ("direction", JStr "above");
         ("threshold", JNum 1000); ("active", JBool true);
         ("webex_enabled", JBool false); ("note", JStr "High priority")]].

(** [loadAlertRules]: the list is emptied, then one item per rule is
    appended; a rule that throws ends the loop with the items before it. *)
Fixpoint renderRules (rules : list Json) (items : list RuleView)
    : list RuleView * option string :=
  match rules with
  | [] => (items, None)
  | rule :: rest =>
      match renderSingleRule rule with
      | Rendered v => renderRules rest (items ++ [v])
      | RuleThrew err => (items, Some err)
      end
  end.

Definition loadAlertRules : list RuleView * option string :=
  renderRules STATIC_ALERT_RULES [].

(** ** Doubles as integers

    A finite double is an integer multiple of [2 ^ emin], the least
    positive one: [Zval] is that integer, for the value of [Prim2SF]. *)

Definition Zval (x : spec_float) : Z :=
  match x with
  | S754_finite s m e => cond_Zopp s (Zpos m * 2 ^ (e - emin))%Z
  | _ => 0%Z
  end.

(** Neither [NaN] nor an infinity. *)
Definition isNumber (x : spec_float) : bool :=
  match x with
  | S754_finite _ _ _ | S754_zero _ => true
  | _ => false
  end.

(** The last step of [binary_round_aux]. *)
Definition SFfinish (s : bool) (m e : Z) : spec_float :=
  match m with
  | Z0 => S754_zero s
  | Zpos p => if (e <=? emax - prec)%Z then S754_finite s p e else S754_infinity s
  | Zneg _ => S754_nan
  end.

(** * Double arithmetic

    The facts about doubles used below, from the specification of the
    primitive operations: the order of two finite doubles is the order of
    their integers [Zval]; rounding keeps the sign of what it rounds,
    leaves alone what fits the mantissa, and never passes a power of
    two. *)

Section Binary64.

Local Open Scope Z_scope.

(** A mantissa of [d] binary digits lies from [2 ^ (d - 1)] to below [2 ^ d]. *)
Lemma digits2_pos_bounds (m : positive) :
  2 ^ (Zpos (digits2_pos m) - 1) <= Zpos m < 2 ^ Zpos (digits2_pos m).
Proof.
  induction m as [p IH|p IH|]; cbn [digits2_pos].
  - rewrite Pos2Z.inj_succ. change (Zpos p~1) with (2 * Zpos p + 1).
    replace (Z.succ (Zpos (digits2_pos p)) - 1) with (Z.succ (Zpos (digits2_pos p) - 1)) by lia.
    rewrite !Z.pow_succ_r by lia.
    generalize dependent (2 ^ (Zpos (digits2_pos p) - 1)).
    generalize dependent (2 ^ Zpos (digits2_pos p)). intros; lia.
  - rewrite Pos2Z.inj_succ. change (Zpos p~0) with (2 * Zpos p).
    replace (Z.succ (Zpos (digits2_pos p)) - 1) with (Z.succ (Zpos (digits2_pos p) - 1)) by lia.
    rewrite !Z.pow_succ_r by lia.
    generalize dependent (2 ^ (Zpos (digits2_pos p) - 1)).
    generalize dependent (2 ^ Zpos (digits2_pos p)). intros; lia.
  - simpl. lia.
Qed.

(** A canonical mantissa has at most 53 digits, and exactly 53 above the
    least exponent. *)
Lemma canonical_inv (m : positive) (e : Z) :
  canonical_mantissa prec emax m e = true ->
  emin <= e /\ Zpos (digits2_pos m) <= 53 /\ (emin < e -> Zpos (digits2_pos m) = 53).
Proof.
  unfold canonical_mantissa, fexp, FloatOps.prec. intros H. apply Z.eqb_eq in H.
  change (SpecFloat.emin 53 emax) with (-1074) in *. lia.
Qed.

Lemma canonical_lt (m1 m2 : positive) (e1 e2 : Z) :
  canonical_mantissa prec emax m1 e1 = true ->
  canonical_mantissa prec emax m2 e2 = true ->
  e1 < e2 ->
  Zpos m1 * 2 ^ (e1 - emin) < Zpos m2 * 2 ^ (e2 - emin).
Proof.
  intros H1 H2 Hlt.
  apply canonical_inv in H1 as (He1 & Hd1 & _).
  apply canonical_inv in H2 as (He2 & _ & Hd2).
  specialize (Hd2 ltac:(lia)).
  pose proof (digits2_pos_bounds m1) as [_ Hm1].
  pose proof (digits2_pos_bounds m2) as [Hm2 _].
  rewrite Hd2 in Hm2.
  assert (Hp : 2 ^ Zpos (digits2_pos m1) <= 2 ^ 53) by (apply Z.pow_le_mono_r; lia).
  replace (e2 - emin) with ((e2 - e1 - 1) + 1 + (e1 - emin)) by lia.
  rewrite !Z.pow_add_r by lia.
  assert (HA : 0 < 2 ^ (e1 - emin)) by (apply Z.pow_pos_nonneg; lia).
  assert (HB : 1 <= 2 ^ (e2 - e1 - 1)) by (apply (Z.pow_le_mono_r 2 0); lia).
  change (2 ^ (53 - 1)) with 4503599627370496 in Hm2.
  change (2 ^ 53) with 9007199254740992 in Hp.
  change (2 ^ 1) with 2.
  generalize dependent (2 ^ (e1 - emin)). generalize dependent (2 ^ (e2 - e1 - 1)).
  generalize dependent (2 ^ Zpos (digits2_pos m1)).
  intros P Hm1 HP b Hb a Ha.
  assert (H1 : Zpos m1 * a < 9007199254740992 * a) by (apply Z.mul_lt_mono_pos_r; lia).
  assert (H2 : 4503599627370496 * (2 * a) <= Zpos m2 * (2 * a)) by (apply Z.mul_le_mono_nonneg_r; lia).
  assert (H3 : Zpos m2 * (2 * a) * 1 <= Zpos m2 * (2 * a) * b) by (apply Z.mul_le_mono_nonneg_l; lia).
  lia.
Qed.

Lemma canonical_compare (m1 m2 : positive) (e1 e2 : Z) :
  canonical_mantissa prec emax m1 e1 = true ->
  canonical_mantissa prec emax m2 e2 = true ->
  match e1 ?= e2 with
  | Lt => Lt
  | Gt => Gt
  | Eq => Pos.compare_cont Eq m1 m2
  end = (Zpos m1 * 2 ^ (e1 - emin) ?= Zpos m2 * 2 ^ (e2 - emin)).
Proof.
  intros H1 H2. destruct (Z.compare_spec e1 e2) as [->|Hlt|Hgt].
  - pose proof (canonical_inv _ _ H2) as (He & _).
    assert (HA : 0 < 2 ^ (e2 - emin)) by (apply Z.pow_pos_nonneg; lia).
    rewrite <- Zmult_compare_compat_r by lia. reflexivity.
  - symmetry. apply Z.compare_lt_iff. now apply canonical_lt.
  - symmetry. apply Z.compare_gt_iff. now apply canonical_lt.
Qed.

(** The order of two numbers is the order of their integers. *)
Lemma SFcompare_Zval (x y : spec_float) :
  valid_binary x = true -> valid_binary y = true ->
  isNumber x = true -> isNumber y = true ->
  SFcompare x y = Some (Zval x ?= Zval y).
Proof.
  intros Vx Vy Nx Ny.
  destruct x as [sx| | |sx mx ex]; try discriminate Nx;
  destruct y as [sy| | |sy my ey]; try discriminate Ny; cbn [SFcompare Zval].
  - reflexivity.
  - f_equal. symmetry.
    assert (0 < Zpos my * 2 ^ (ey - emin)) by (apply Z.mul_pos_pos; [lia|apply Z.pow_pos_nonneg; [lia|]];
      cbn in Vy; apply andb_prop in Vy as [Vy _]; apply canonical_inv in Vy; lia).
    destruct sy; cbn [cond_Zopp]; [apply Z.compare_gt_iff|apply Z.compare_lt_iff]; lia.
  - f_equal. symmetry.
    assert (0 < Zpos mx * 2 ^ (ex - emin)) by (apply Z.mul_pos_pos; [lia|apply Z.pow_pos_nonneg; [lia|]];
      cbn in Vx; apply andb_prop in Vx as [Vx _]; apply canonical_inv in Vx; lia).
    destruct sx; cbn [cond_Zopp]; [apply Z.compare_lt_iff|apply Z.compare_gt_iff]; lia.
  - cbn in Vx, Vy. apply andb_prop in Vx as [Vx _]. apply andb_prop in Vy as [Vy _].
    pose proof (canonical_compare _ _ _ _ Vx Vy) as Hc.
    pose proof (canonical_inv _ _ Vx) as (Hex & _).
    pose proof (canonical_inv _ _ Vy) as (Hey & _).
    assert (0 < Zpos mx * 2 ^ (ex - emin)) by (apply Z.mul_pos_pos; [lia|apply Z.pow_pos_nonneg; lia]).
    assert (0 < Zpos my * 2 ^ (ey - emin)) by (apply Z.mul_pos_pos; [lia|apply Z.pow_pos_nonneg; lia]).
    f_equal. destruct sx, sy; cbn [cond_Zopp].
    + rewrite Z.compare_opp, (Z.compare_antisym (Zpos mx * _)), <- Hc.
      destruct (ex ?= ey); reflexivity.
    + symmetry. apply Z.compare_lt_iff. lia.
    + symmetry. apply Z.compare_gt_iff. lia.
    + exact Hc.
Qed.


Lemma Zdigits2_bounds (m : Z) :
  0 < m -> 2 ^ (Zdigits2 m - 1) <= m < 2 ^ Zdigits2 m.
Proof.
  destruct m as [|p|p]; try lia. intros _. apply digits2_pos_bounds.
Qed.

Lemma Zdigits2_pos (m : Z) : 0 < m -> 0 < Zdigits2 m.
Proof. destruct m; simpl; lia. Qed.

Lemma Zdigits2_le (m k : Z) : 0 < m -> 0 <= k -> m < 2 ^ k -> Zdigits2 m <= k.
Proof.
  intros Hm Hk Hlt. pose proof (Zdigits2_bounds m Hm) as [Hlo _].
  pose proof (Zdigits2_pos m Hm).
  destruct (Z_le_gt_dec (Zdigits2 m) k) as [|Hgt]; [assumption|exfalso].
  assert (2 ^ k <= 2 ^ (Zdigits2 m - 1)) by (apply Z.pow_le_mono_r; lia). lia.
Qed.

Lemma shr_record_of_loc_m (m : Z) (l : location) : shr_m (shr_record_of_loc m l) = m.
Proof. destruct l as [|[]]; reflexivity. Qed.

Lemma shr_1_m (mrs : shr_record) :
  0 <= shr_m mrs -> shr_m (shr_1 mrs) = shr_m mrs / 2.
Proof.
  destruct mrs as [m r s]; cbn [shr_m]. intros Hm. rewrite <- Z.div2_div.
  destruct m as [|[p|p|]|p]; try reflexivity; lia.
Qed.

(** Shifting right by [p] divides the mantissa by [2 ^ p]. *)
Lemma iter_shr_1_m (p : positive) (mrs : shr_record) :
  0 <= shr_m mrs ->
  shr_m (SpecFloat.iter_pos shr_1 p mrs) = shr_m mrs / 2 ^ Zpos p.
Proof.
  revert mrs. induction p as [p IH|p IH|]; intros mrs Hm; cbn [SpecFloat.iter_pos].
  - assert (H1 : 0 <= shr_m (shr_1 mrs)) by (rewrite shr_1_m by assumption; apply Z.div_pos; lia).
    assert (Hp : 0 < 2 ^ Zpos p) by (apply Z.pow_pos_nonneg; lia).
    assert (H2 : 0 <= shr_m (SpecFloat.iter_pos shr_1 p (shr_1 mrs))) by (rewrite IH by assumption; apply Z.div_pos; lia).
    rewrite IH, IH, shr_1_m by assumption.
    rewrite !Z.div_div by lia. f_equal.
    replace (Zpos p~1) with (1 + (Zpos p + Zpos p)) by lia. rewrite !Z.pow_add_r by lia. reflexivity.
  - assert (Hp : 0 < 2 ^ Zpos p) by (apply Z.pow_pos_nonneg; lia).
    assert (H2 : 0 <= shr_m (SpecFloat.iter_pos shr_1 p mrs)) by (rewrite IH by assumption; apply Z.div_pos; lia).
    rewrite IH, IH by assumption.
    rewrite !Z.div_div by lia. f_equal.
    replace (Zpos p~0) with (Zpos p + Zpos p) by lia. rewrite !Z.pow_add_r by lia. reflexivity.
  - apply shr_1_m; assumption.
Qed.

(** Nothing is lost when the bits shifted out are zeros. *)
Lemma iter_shr_1_exact (p : positive) (k : Z) :
  0 <= k ->
  SpecFloat.iter_pos shr_1 p (Build_shr_record (k * 2 ^ Zpos p) false false)
  = Build_shr_record k false false.
Proof.
  revert k. induction p as [p IH|p IH|]; intros k Hk; cbn [SpecFloat.iter_pos].
  - assert (Hp : 0 < 2 ^ Zpos p) by (apply Z.pow_pos_nonneg; lia).
    replace (k * 2 ^ Zpos p~1) with (2 * ((k * 2 ^ Zpos p) * 2 ^ Zpos p)).
    2:{ replace (Zpos p~1) with (1 + (Zpos p + Zpos p)) by lia. rewrite !Z.pow_add_r by lia.
        change (2 ^ 1) with 2. ring. }
    assert (H0 : 0 <= k * 2 ^ Zpos p * 2 ^ Zpos p) by (apply Z.mul_nonneg_nonneg; [apply Z.mul_nonneg_nonneg|]; lia).
    assert (E : shr_1 (Build_shr_record (2 * (k * 2 ^ Zpos p * 2 ^ Zpos p)) false false)
                = Build_shr_record (k * 2 ^ Zpos p * 2 ^ Zpos p) false false).
    { destruct (k * 2 ^ Zpos p * 2 ^ Zpos p) as [|q|q]; try reflexivity; lia. }
    rewrite E, IH by (apply Z.mul_nonneg_nonneg; lia). apply IH; assumption.
  - assert (Hp : 0 < 2 ^ Zpos p) by (apply Z.pow_pos_nonneg; lia).
    replace (k * 2 ^ Zpos p~0) with ((k * 2 ^ Zpos p) * 2 ^ Zpos p).
    2:{ replace (Zpos p~0) with (Zpos p + Zpos p) by lia. rewrite !Z.pow_add_r by lia. ring. }
    rewrite IH by (apply Z.mul_nonneg_nonneg; lia). apply IH; assumption.
  - change (2 ^ 1) with 2. replace (k * 2) with (2 * k) by ring.
    destruct k as [|q|q]; try reflexivity; lia.
Qed.

Lemma shr_spec (mrs : shr_record) (e n : Z) :
  0 <= shr_m mrs ->
  shr_m (fst (shr mrs e n)) = shr_m mrs / 2 ^ Z.max 0 n /\
  snd (shr mrs e n) = e + Z.max 0 n.
Proof.
  intros Hm. destruct n as [|p|p]; cbn [shr fst snd Z.max Z.compare].
  - rewrite Z.div_1_r. lia.
  - split; [apply iter_shr_1_m; assumption|reflexivity].
  - rewrite Z.div_1_r. lia.
Qed.

Lemma shr_exact (k e n : Z) :
  0 <= k ->
  shr (Build_shr_record (k * 2 ^ Z.max 0 n) false false) e n
  = (Build_shr_record k false false, e + Z.max 0 n).
Proof.
  intros Hk. destruct n as [|p|p]; cbn [shr Z.max Z.compare].
  - rewrite Z.mul_1_r, Z.add_0_r. reflexivity.
  - rewrite iter_shr_1_exact by assumption. reflexivity.
  - rewrite Z.mul_1_r, Z.add_0_r. reflexivity.
Qed.

Lemma round_nearest_even_bounds (m : Z) (l : location) :
  m <= round_nearest_even m l <= m + 1.
Proof.
  destruct l as [|[]]; cbn [round_nearest_even]; try destruct (Z.even m); lia.
Qed.

(** What [binary_round_aux] computes: the mantissa shifted to its
    exponent, rounded up by one or not at all (not at all when nothing was
    lost), shifted once more if the rounding added a digit. *)
Lemma binary_round_aux_spec (s : bool) (m e : Z) (l : location) :
  0 < m ->
  let n1 := Z.max 0 (fexp prec emax (Zdigits2 m + e) - e) in
  let m1 := m / 2 ^ n1 in
  let e1 := e + n1 in
  exists r, m1 <= r <= m1 + 1 /\
    (l = loc_Exact -> m = m1 * 2 ^ n1 -> r = m1) /\
    let n2 := Z.max 0 (fexp prec emax (Zdigits2 r + e1) - e1) in
    binary_round_aux prec emax s m e l = SFfinish s (r / 2 ^ n2) (e1 + n2).
Proof.
  intros Hm n1 m1 e1. unfold binary_round_aux, shr_fexp.
  pose proof (shr_spec (shr_record_of_loc m l) e (fexp prec emax (Zdigits2 m + e) - e)) as [Hs1 He1].
  { rewrite shr_record_of_loc_m. lia. }
  rewrite shr_record_of_loc_m in Hs1. fold n1 in Hs1, He1. fold m1 in Hs1. fold e1 in He1.
  assert (Hx : l = loc_Exact -> m = m1 * 2 ^ n1 ->
               fst (shr (shr_record_of_loc m l) e (fexp prec emax (Zdigits2 m + e) - e))
               = Build_shr_record m1 false false).
  { intros -> Hmm. cbn [shr_record_of_loc]. rewrite Hmm at 1. unfold n1.
    rewrite shr_exact; [reflexivity|]. apply Z.div_pos; [lia|]. apply Z.pow_pos_nonneg; lia. }
  destruct (shr (shr_record_of_loc m l) e (fexp prec emax (Zdigits2 m + e) - e)) as [mrs' e'].
  cbn [fst snd] in Hs1, He1, Hx. subst e'.
  set (r := round_nearest_even (shr_m mrs') (loc_of_shr_record mrs')).
  assert (Hm1 : 0 <= m1) by (apply Z.div_pos; [lia|apply Z.pow_pos_nonneg; lia]).
  assert (Hr : m1 <= r <= m1 + 1) by (unfold r; rewrite <- Hs1; apply round_nearest_even_bounds).
  exists r. split; [exact Hr|]. split.
  { intros Hl Hmm. unfold r. rewrite (Hx Hl Hmm). reflexivity. }
  cbv zeta. set (n2 := Z.max 0 (fexp prec emax (Zdigits2 r + e1) - e1)).
  pose proof (shr_spec (shr_record_of_loc r loc_Exact) e1 (fexp prec emax (Zdigits2 r + e1) - e1)) as [Hs2 He2].
  { cbn [shr_record_of_loc shr_m]. lia. }
  cbn [shr_record_of_loc shr_m] in Hs2, He2 |- *. fold n2 in Hs2, He2.
  destruct (shr (Build_shr_record r false false) e1 (fexp prec emax (Zdigits2 r + e1) - e1)) as [mrs'' e''].
  cbn [fst snd] in Hs2, He2. rewrite Hs2, He2. reflexivity.
Qed.

Lemma Zdigits2_unique (x a : Z) :
  0 < x -> 2 ^ (a - 1) <= x < 2 ^ a -> 0 < a -> Zdigits2 x = a.
Proof.
  intros Hx [Hlo Hhi] Ha.
  pose proof (Zdigits2_bounds x Hx) as [Hlo' Hhi'].
  pose proof (Zdigits2_pos x Hx) as Hd.
  destruct (Z.lt_trichotomy (Zdigits2 x) a) as [Hlt|[Heq|Hgt]]; [exfalso|assumption|exfalso].
  - assert (2 ^ Zdigits2 x <= 2 ^ (a - 1)) by (apply Z.pow_le_mono_r; lia). lia.
  - assert (2 ^ a <= 2 ^ (Zdigits2 x - 1)) by (apply Z.pow_le_mono_r; lia). lia.
Qed.

Lemma Zdigits2_shift (m k : Z) :
  0 < m -> 0 <= k -> Zdigits2 (m * 2 ^ k) = Zdigits2 m + k.
Proof.
  intros Hm Hk.
  pose proof (Zdigits2_bounds m Hm) as [Hlo Hhi].
  pose proof (Zdigits2_pos m Hm) as Hd.
  assert (Hp : 0 < 2 ^ k) by (apply Z.pow_pos_nonneg; lia).
  apply Zdigits2_unique; [apply Z.mul_pos_pos; lia| |lia].
  replace (Zdigits2 m + k - 1) with ((Zdigits2 m - 1) + k) by lia.
  rewrite !Z.pow_add_r by lia. split.
  - apply Z.mul_le_mono_nonneg_r; lia.
  - apply Z.mul_lt_mono_pos_r; lia.
Qed.

Lemma Pos_iter_xO (m d : positive) : Zpos (Pos.iter xO m d) = Zpos m * 2 ^ Zpos d.
Proof.
  induction d as [|d IH] using Pos.peano_ind.
  - cbn [Pos.iter]. change (2 ^ 1) with 2. lia.
  - rewrite Pos.iter_succ, Pos2Z.inj_succ, Z.pow_succ_r by lia.
    change (Zpos (Pos.iter xO m d)~0) with (2 * Zpos (Pos.iter xO m d)). rewrite IH. ring.
Qed.

Lemma shl_align_spec (mx : positive) (ex ex' : Z) :
  snd (shl_align mx ex ex') = Z.min ex ex' /\
  Zpos (fst (shl_align mx ex ex')) = Zpos mx * 2 ^ (ex - Z.min ex ex').
Proof.
  unfold shl_align. destruct (ex' - ex) as [|d|d] eqn:E; cbn [fst snd].
  - replace (Z.min ex ex') with ex by lia. rewrite Z.sub_diag. lia.
  - replace (Z.min ex ex') with ex by lia. rewrite Z.sub_diag. lia.
  - replace (Z.min ex ex') with ex' by lia. split; [reflexivity|].
    rewrite Pos_iter_xO. f_equal. f_equal. lia.
Qed.

Lemma shift_pos (x e : Z) :
  0 < x -> emin <= e ->
  0 < x / 2 ^ Z.max 0 (fexp prec emax (Zdigits2 x + e) - e).
Proof.
  intros Hx He. pose proof (Zdigits2_bounds x Hx) as [Hlo _].
  pose proof (Zdigits2_pos x Hx) as Hd.
  apply Z.div_str_pos. split; [apply Z.pow_pos_nonneg; lia|].
  etransitivity; [|exact Hlo]. apply Z.pow_le_mono_r; [lia|].
  unfold fexp, SpecFloat.emin, prec, emax in *. lia.
Qed.

Lemma binary_round_aux_sign (s : bool) (m e : Z) (l : location) :
  0 < m -> emin <= e ->
  binary_round_aux prec emax s m e l = S754_infinity s \/
  exists m' e', binary_round_aux prec emax s m e l = S754_finite s m' e'.
Proof.
  intros Hm He.
  destruct (binary_round_aux_spec s m e l Hm) as (r & Hr & _ & ->).
  pose proof (shift_pos m e Hm He) as H1.
  set (e1 := e + Z.max 0 (fexp prec emax (Zdigits2 m + e) - e)) in *.
  assert (He1 : emin <= e1) by (unfold e1; lia).
  pose proof (shift_pos r e1 ltac:(lia) He1) as H2.
  destruct (r / 2 ^ Z.max 0 (fexp prec emax (Zdigits2 r + e1) - e1)) as [|p|p]; try lia.
  cbn [SFfinish].
  destruct (_ <=? _); [right; eauto|left; reflexivity].
Qed.

Lemma binary_round_sign (s : bool) (m : positive) (e : Z) :
  emin <= e ->
  binary_round prec emax s m e = S754_infinity s \/
  exists m' e', binary_round prec emax s m e = S754_finite s m' e'.
Proof.
  intros He. unfold binary_round.
  pose proof (shl_align_spec m e (fexp prec emax (Zpos (digits2_pos m) + e))) as [Hz _].
  destruct (shl_align m e (fexp prec emax (Zpos (digits2_pos m) + e))) as [mz ez].
  cbn [snd] in Hz. apply binary_round_aux_sign; [lia|].
  subst ez. unfold fexp, SpecFloat.emin, prec, emax in *. lia.
Qed.

(** The sign of a rounded integer is the sign of the integer. *)
Lemma binary_normalize_sign (d e : Z) :
  emin <= e ->
  SFltb (S754_zero false) (binary_normalize prec emax d e false) = (0 <? d).
Proof.
  intros He. destruct d as [|p|p]; cbn [binary_normalize].
  - reflexivity.
  - destruct (binary_round_sign false p e He) as [->|(m' & e' & ->)]; reflexivity.
  - destruct (binary_round_sign true p e He) as [->|(m' & e' & ->)]; reflexivity.
Qed.

Lemma valid_finite_inv (s : bool) (m : positive) (e : Z) :
  valid_binary (S754_finite s m e) = true ->
  canonical_mantissa prec emax m e = true /\ emin <= e <= emax - prec.
Proof.
  cbn. intros H. apply andb_prop in H as [Hc Hb]. split; [assumption|].
  apply canonical_inv in Hc. apply Z.leb_le in Hb. lia.
Qed.

(** The difference that [SFsub] rounds is the difference of the integers. *)
Lemma aligned_diff (sx sy : bool) (mx my : positive) (ex ey : Z) :
  emin <= ex -> emin <= ey ->
  let ez := Z.min ex ey in
  (cond_Zopp sx (Zpos (fst (shl_align mx ex ez)))
   - cond_Zopp sy (Zpos (fst (shl_align my ey ez)))) * 2 ^ (ez - emin)
  = Zval (S754_finite sx mx ex) - Zval (S754_finite sy my ey).
Proof.
  intros Hx Hy ez. cbn [Zval].
  destruct (shl_align_spec mx ex ez) as [_ ->]. destruct (shl_align_spec my ey ez) as [_ ->].
  replace (Z.min ex ez) with ez by lia. replace (Z.min ey ez) with ez by lia.
  replace (ex - emin) with ((ex - ez) + (ez - emin)) by lia.
  replace (ey - emin) with ((ey - ez) + (ez - emin)) by lia.
  rewrite !Z.pow_add_r by lia.
  destruct sx, sy; cbn [cond_Zopp]; ring.
Qed.

Lemma SFltb_Zval (x y : spec_float) :
  valid_binary x = true -> valid_binary y = true ->
  isNumber x = true -> isNumber y = true ->
  SFltb x y = (Zval x <? Zval y).
Proof.
  intros Vx Vy Nx Ny. unfold SFltb. rewrite (SFcompare_Zval x y Vx Vy Nx Ny).
  unfold Z.ltb. destruct (Zval x ?= Zval y); reflexivity.
Qed.

Lemma SFsub_sign (x y : spec_float) :
  valid_binary x = true -> valid_binary y = true ->
  SFltb (S754_zero false) (SF64sub x y) = SFltb y x.
Proof.
  intros Vx Vy. unfold SF64sub.
  destruct x as [sx|sx| |sx mx ex]; destruct y as [sy|sy| |sy my ey];
    try (repeat match goal with b : bool |- _ => destruct b end; reflexivity).
  cbn [SFsub].
  pose proof (valid_finite_inv _ _ _ Vx) as [_ Hex].
  pose proof (valid_finite_inv _ _ _ Vy) as [_ Hey].
  rewrite binary_normalize_sign by lia.
  rewrite (SFltb_Zval _ _ Vy Vx eq_refl eq_refl).
  pose proof (aligned_diff sx sy mx my ex ey ltac:(lia) ltac:(lia)) as Hd. cbv zeta in Hd.
  assert (Hp : 0 < 2 ^ (Z.min ex ey - emin)) by (apply Z.pow_pos_nonneg; lia).
  set (d := cond_Zopp sx _ - cond_Zopp sy _) in *.
  destruct (Z.ltb_spec 0 d), (Z.ltb_spec (Zval (S754_finite sy my ey)) (Zval (S754_finite sx mx ex)));
    try reflexivity; exfalso.
  - assert (0 < d * 2 ^ (Z.min ex ey - emin)) by (apply Z.mul_pos_pos; lia). lia.
  - assert (d * 2 ^ (Z.min ex ey - emin) <= 0) by (apply Z.mul_nonpos_nonneg; lia). lia.
Qed.

(** [change > 0] in the mock feed is [newPrice > prev.price]: the sign of a
    double difference is the order of its operands. *)
Lemma sub_pos_ltb (a b : float) : (0 <? a - b)%float = (b <? a)%float.
Proof.
  rewrite !ltb_spec, sub_spec.
  change (Prim2SF 0%float) with (S754_zero false).
  apply SFsub_sign; apply Prim2SF_valid.
Qed.

Lemma SFleb_Zval (x y : spec_float) :
  valid_binary x = true -> valid_binary y = true ->
  isNumber x = true -> isNumber y = true ->
  SFleb x y = (Zval x <=? Zval y).
Proof.
  intros Vx Vy Nx Ny. unfold SFleb. rewrite (SFcompare_Zval x y Vx Vy Nx Ny).
  unfold Z.leb. destruct (Zval x ?= Zval y); reflexivity.
Qed.

(** Rounding an integer that fits the mantissa changes nothing. *)
Lemma binary_round_exact (s : bool) (m : positive) (e : Z) :
  emin <= e <= emax - prec -> Zpos (digits2_pos m) <= prec ->
  exists m' e', binary_round prec emax s m e = S754_finite s m' e' /\
    Zpos m' * 2 ^ (e' - emin) = Zpos m * 2 ^ (e - emin).
Proof.
  intros He Hd. unfold binary_round.
  set (dg := Zpos (digits2_pos m) + e).
  pose proof (shl_align_spec m e (fexp prec emax dg)) as [Hz Hmz].
  destruct (shl_align m e (fexp prec emax dg)) as [mz ez]. cbn [fst snd] in Hz, Hmz.
  assert (Hfe : fexp prec emax dg <= e)
    by (unfold dg, fexp, SpecFloat.emin, prec, emax in *; lia).
  assert (Hez : ez = fexp prec emax dg) by lia.
  assert (Hge : emin <= ez) by (rewrite Hez; unfold fexp, SpecFloat.emin, prec, emax in *; lia).
  rewrite <- Hz in Hmz.
  assert (Hdz : Zdigits2 (Zpos mz) + ez = dg).
  { rewrite Hmz, Zdigits2_shift by lia. cbn [Zdigits2]. unfold dg. lia. }
  destruct (binary_round_aux_spec s (Zpos mz) ez loc_Exact ltac:(lia)) as (r & _ & Hx & ->).
  rewrite Hdz in *.
  replace (Z.max 0 (fexp prec emax dg - ez)) with 0 in * by lia.
  rewrite Z.pow_0_r, Z.div_1_r, Z.add_0_r in *.
  rewrite (Hx eq_refl ltac:(lia)). rewrite Hdz.
  replace (Z.max 0 (fexp prec emax dg - ez)) with 0 by lia.
  rewrite Z.pow_0_r, Z.div_1_r, Z.add_0_r. cbn [SFfinish].
  replace (ez <=? emax - prec) with true by (symmetry; apply Z.leb_le; lia).
  exists mz, ez. split; [reflexivity|].
  rewrite Hmz, <- Z.mul_assoc, <- Z.pow_add_r by lia. f_equal. f_equal. lia.
Qed.

(** A rounded integer below a power of two stays at or below it. *)
Lemma binary_round_upper (s : bool) (m : positive) (e k : Z) :
  emin <= e -> Zpos (digits2_pos m) + e <= k -> k < emax ->
  exists m' e', binary_round prec emax s m e = S754_finite s m' e' /\
    emin <= e' /\ Zpos m' * 2 ^ (e' - emin) <= 2 ^ (k - emin).
Proof.
  intros He Hk Hkmax. unfold binary_round.
  set (dg := Zpos (digits2_pos m) + e) in *.
  pose proof (shl_align_spec m e (fexp prec emax dg)) as [Hz Hmz].
  destruct (shl_align m e (fexp prec emax dg)) as [mz ez]. cbn [fst snd] in Hz, Hmz.
  rewrite <- Hz in Hmz.
  assert (Hge : emin <= ez) by (rewrite Hz; unfold fexp, SpecFloat.emin, prec, emax in *; lia).
  assert (Hdz : Zdigits2 (Zpos mz) + ez = dg).
  { rewrite Hmz, Zdigits2_shift by lia. cbn [Zdigits2]. unfold dg. lia. }
  destruct (binary_round_aux_spec s (Zpos mz) ez loc_Exact ltac:(lia)) as (r & Hr & _ & ->).
  pose proof (shift_pos (Zpos mz) ez ltac:(lia) Hge) as Hm1.
  rewrite Hdz in *.
  set (n1 := Z.max 0 (fexp prec emax dg - ez)) in *.
  set (m1 := Zpos mz / 2 ^ n1) in *.
  assert (He1 : ez + n1 = fexp prec emax dg) by lia.
  rewrite He1 in *. set (e1 := fexp prec emax dg) in *.
  assert (Hdg : e1 <= dg /\ emin <= e1 /\ dg - prec <= e1)
    by (pose proof (Pos2Z.is_pos (digits2_pos m)); unfold e1, dg, fexp, SpecFloat.emin, prec, emax in *; lia).
  assert (Hm1u : m1 < 2 ^ (dg - e1)).
  { unfold m1. apply Z.div_lt_upper_bound; [apply Z.pow_pos_nonneg; lia|].
    rewrite <- Z.pow_add_r by lia. replace (n1 + (dg - e1)) with (Zdigits2 (Zpos mz)) by lia.
    apply Zdigits2_bounds; lia. }
  pose proof (shift_pos r e1 ltac:(lia) ltac:(lia)) as Hm2.
  set (n2 := Z.max 0 (fexp prec emax (Zdigits2 r + e1) - e1)) in *.
  assert (Hrd : Zdigits2 r <= dg - e1 + 1).
  { apply Zdigits2_le; [lia|lia|]. rewrite Z.pow_add_r by lia. change (2 ^ 1) with 2. lia. }
  assert (He2 : e1 + n2 <= emax - prec /\ emin <= e1 + n2)
    by (unfold n2, e1, fexp, SpecFloat.emin, prec, emax in *; lia).
  destruct (r / 2 ^ n2) as [|p|p] eqn:Ep; try lia. cbn [SFfinish].
  replace (e1 + n2 <=? emax - prec) with true by (symmetry; apply Z.leb_le; lia).
  exists p, (e1 + n2). split; [reflexivity|]. split; [lia|].
  assert (Hn2 : 0 < 2 ^ n2) by (apply Z.pow_pos_nonneg; lia).
  assert (Hpr : Zpos p * 2 ^ n2 <= r).
  { rewrite <- Ep, Z.mul_comm. apply Z.mul_div_le; lia. }
  replace (e1 + n2 - emin) with (n2 + (e1 - emin)) by lia.
  rewrite Z.pow_add_r, Z.mul_assoc by lia.
  assert (Hp1 : 0 < 2 ^ (e1 - emin)) by (apply Z.pow_pos_nonneg; lia).
  transitivity (2 ^ (dg - e1) * 2 ^ (e1 - emin)).
  - apply Z.mul_le_mono_nonneg_r; lia.
  - rewrite <- Z.pow_add_r by lia. apply Z.pow_le_mono_r; lia.
Qed.

(** Multiplying by 4 only moves the exponent. *)
Lemma SFmul_4 (s : bool) (m : positive) (e : Z) :
  valid_binary (S754_finite s m e) = true -> e + 2 <= emax - prec ->
  exists m' e',
    SF64mul (S754_finite s m e) (S754_finite false 4503599627370496 (-50))
    = S754_finite s m' e' /\
    Zpos m' * 2 ^ (e' - emin) = 4 * (Zpos m * 2 ^ (e - emin)).
Proof.
  intros V He. apply valid_finite_inv in V as [Hc Hb].
  unfold SF64mul. cbn [SFmul]. rewrite xorb_false_r.
  assert (HM : Zpos (m * 4503599627370496) = Zpos m * 2 ^ 52) by reflexivity.
  set (g := Zpos (digits2_pos m) + e).
  assert (Hfg : fexp prec emax g = e) by (apply Z.eqb_eq; exact Hc).
  assert (Hd : Zdigits2 (Zpos (m * 4503599627370496)) + (e + -50) = g + 2).
  { rewrite HM, Zdigits2_shift by lia. cbn [Zdigits2]. unfold g. lia. }
  destruct (binary_round_aux_spec s (Zpos (m * 4503599627370496)) (e + -50) loc_Exact (Pos2Z.is_pos _))
    as (r & _ & Hx & ->).
  rewrite Hd in *.
  set (n1 := Z.max 0 (fexp prec emax (g + 2) - (e + -50))) in *.
  assert (Hn1 : 50 <= n1 <= 52 /\ e + -50 + n1 = fexp prec emax (g + 2))
    by (unfold n1, fexp, SpecFloat.emin, prec, emax in *; lia).
  destruct Hn1 as [Hn1 He1]. rewrite He1 in *.
  assert (Hdiv : Zpos (m * 4503599627370496) / 2 ^ n1 = Zpos m * 2 ^ (52 - n1)).
  { rewrite HM. replace 52 with ((52 - n1) + n1) at 1 by lia.
    rewrite Z.pow_add_r, Z.mul_assoc by lia. apply Z.div_mul.
    apply Z.pow_nonzero; lia. }
  rewrite Hdiv in *.
  assert (Hr : r = Zpos m * 2 ^ (52 - n1)).
  { apply Hx; [reflexivity|]. rewrite HM, <- Z.mul_assoc, <- Z.pow_add_r by lia.
    f_equal. f_equal. lia. }
  subst r.
  rewrite Zdigits2_shift by lia. cbn [Zdigits2].
  replace (Zpos (digits2_pos m) + (52 - n1) + fexp prec emax (g + 2)) with (g + 2)
    by (rewrite <- He1; unfold g; lia).
  rewrite Z.sub_diag. cbn [Z.max Z.compare]. rewrite Z.pow_0_r, Z.div_1_r, Z.add_0_r.
  assert (Hpos : 0 < Zpos m * 2 ^ (52 - n1)) by (apply Z.mul_pos_pos; [lia|apply Z.pow_pos_nonneg; lia]).
  destruct (Zpos m * 2 ^ (52 - n1)) as [|p|p] eqn:Ep; try lia. cbn [SFfinish].
  replace (fexp prec emax (g + 2) <=? emax - prec) with true
    by (symmetry; apply Z.leb_le; unfold fexp, SpecFloat.emin, prec, emax in *; lia).
  exists p, (fexp prec emax (g + 2)). split; [reflexivity|].
  rewrite <- Ep, <- Z.mul_assoc, <- Z.pow_add_r
    by (unfold fexp, SpecFloat.emin, prec, emax in *; lia).
  replace (52 - n1 + (fexp prec emax (g + 2) - emin)) with (2 + (e - emin)) by lia.
  rewrite Z.pow_add_r by lia. change (2 ^ 2) with 4. ring.
Qed.

Lemma pow2_1075 : 2 ^ 1075 = 4 * 2 ^ 1073.
Proof. change 1075 with (2 + 1073). rewrite Z.pow_add_r by lia. reflexivity. Qed.

Lemma pow2_1074 : 2 ^ 1074 = 2 * 2 ^ 1073.
Proof. change 1074 with (1 + 1073). rewrite Z.pow_add_r by lia. reflexivity. Qed.

Lemma pow2_52_shift (k : Z) : 0 <= k -> 4503599627370496 * 2 ^ k = 2 ^ (52 + k).
Proof. intros Hk. rewrite Z.pow_add_r by lia. reflexivity. Qed.

(** [Math.random() - 0.5] is a number from -0.5 up to, and short of, 0.5:
    in units of [2 ^ emin], from [- 2 ^ 1073] to below [2 ^ 1073]. *)
Lemma sub_half_range (r : float) :
  (0 <=? r)%float = true -> (r <? 1)%float = true ->
  isNumber (Prim2SF (r - 0.5)%float) = true /\
  - 2 ^ 1073 <= Zval (Prim2SF (r - 0.5)%float) < 2 ^ 1073.
Proof.
  rewrite leb_spec, ltb_spec, sub_spec.
  change (Prim2SF 0%float) with (S754_zero false).
  change (Prim2SF 1%float) with (S754_finite false 4503599627370496 (-52)).
  change (Prim2SF 0.5%float) with (S754_finite false 4503599627370496 (-53)).
  pose proof (Prim2SF_valid r) as V.
  assert (HP : 0 < 2 ^ 1073) by (apply Z.pow_pos_nonneg; lia).
  destruct (Prim2SF r) as [s|s| |s m e]; intros H0 H1.
  - cbn [SF64sub SFsub negb isNumber Zval cond_Zopp]. split; [reflexivity|].
    change (-53 - emin) with 1021. rewrite pow2_52_shift by lia. change (52 + 1021) with 1073. lia.
  - destruct s; discriminate.
  - discriminate.
  - destruct s; [discriminate|].
    rewrite (SFltb_Zval _ (S754_finite false 4503599627370496 (-52)) V eq_refl eq_refl eq_refl) in H1. apply Z.ltb_lt in H1.
    cbn [Zval cond_Zopp] in H1. change (-52 - emin) with 1022 in H1.
    rewrite pow2_52_shift in H1 by lia. change (52 + 1022) with 1074 in H1.
    pose proof (valid_finite_inv _ _ _ V) as [Hc Hb].
    pose proof (canonical_inv _ _ Hc) as (_ & Hd & Hn).
    pose proof (digits2_pos_bounds m) as [Hlo Hhi].
    assert (He : e <= -53).
    { destruct (Z_le_gt_dec e (-53)) as [|Hgt]; [assumption|exfalso].
      rewrite Hn in Hlo by (unfold SpecFloat.emin, prec, emax; lia).
      change (2 ^ (53 - 1)) with 4503599627370496 in Hlo.
      assert (2 ^ 1022 <= 2 ^ (e - emin))
        by (apply Z.pow_le_mono_r; unfold SpecFloat.emin, prec, emax; lia).
      assert (4503599627370496 * 2 ^ 1022 <= Zpos m * 2 ^ (e - emin))
        by (apply Z.mul_le_mono_nonneg; lia).
      rewrite pow2_52_shift in * by lia. change (52 + 1022) with 1074 in *. lia. }
    assert (Hm53 : Zpos m < 2 ^ 53).
    { eapply Z.lt_le_trans; [exact Hhi|]. apply Z.pow_le_mono_r; unfold prec in Hd; lia. }
    unfold SF64sub. cbn [SFsub].
    replace (Z.min e (-53)) with e by lia.
    destruct (shl_align_spec m e e) as [_ ->].
    destruct (shl_align_spec 4503599627370496 (-53) e) as [_ ->].
    replace (Z.min e e) with e by lia. replace (Z.min (-53) e) with e by lia.
    rewrite Z.sub_diag, Z.pow_0_r, Z.mul_1_r. cbn [cond_Zopp].
    rewrite pow2_52_shift by lia. replace (52 + (-53 - e)) with (-1 - e) by lia.
    assert (Hemin : emin <= e) by lia.
    assert (Hsc : 2 ^ (-1 - e) * 2 ^ (e - emin) = 2 ^ 1073).
    { rewrite <- Z.pow_add_r by lia. f_equal.
      unfold SpecFloat.emin, prec, emax. lia. }
    assert (Hpe : 0 < 2 ^ (e - emin)) by (apply Z.pow_pos_nonneg; lia).
    destruct (Zpos m - 2 ^ (-1 - e)) as [|p|p] eqn:ED; cbn [binary_normalize].
    + split; [reflexivity|]. cbn [Zval]. lia.
    + assert (He53 : e = -53).
      { destruct (Z.eq_dec e (-53)) as [|Hne]; [assumption|exfalso].
        assert (2 ^ 53 <= 2 ^ (-1 - e)) by (apply Z.pow_le_mono_r; lia). lia. }
      subst e. change (-1 - -53) with 52 in *.
      assert (Hp52 : Zpos p < 2 ^ 52) by lia.
      assert (Hdp : Zpos (digits2_pos p) <= 52)
        by (apply (Zdigits2_le (Zpos p)); lia).
      destruct (binary_round_exact false p (-53)) as (m' & e' & -> & Hv).
      { unfold SpecFloat.emin, prec, emax. lia. }
      { unfold prec. lia. }
      split; [reflexivity|]. cbn [Zval cond_Zopp]. rewrite Hv.
      rewrite <- Hsc. split.
      * assert (0 < Zpos p * 2 ^ (-53 - emin)) by (apply Z.mul_pos_pos; lia). lia.
      * apply Z.mul_lt_mono_pos_r; lia.
    + assert (Hp : Zpos p < 2 ^ (-1 - e)) by lia.
      assert (Hdp : Zpos (digits2_pos p) <= -1 - e)
        by (apply (Zdigits2_le (Zpos p)); lia).
      destruct (binary_round_upper true p e (-1)) as (m' & e' & -> & He' & Hv).
      { lia. }
      { lia. }
      { unfold emax. lia. }
      split; [reflexivity|]. cbn [Zval cond_Zopp].
      change (-1 - emin) with 1073 in Hv.
      assert (0 < Zpos m' * 2 ^ (e' - emin)); [|lia].
      apply Z.mul_pos_pos; [lia|apply Z.pow_pos_nonneg; lia].
Qed.

Lemma mul_4_Zval (x : float) :
  isNumber (Prim2SF x) = true ->
  - 2 ^ 1073 <= Zval (Prim2SF x) <= 2 ^ 1073 ->
  isNumber (Prim2SF (x * 4)%float) = true /\
  Zval (Prim2SF (x * 4)%float) = 4 * Zval (Prim2SF x).
Proof.
  rewrite mul_spec.
  change (Prim2SF 4%float) with (S754_finite false 4503599627370496 (-50)).
  pose proof (Prim2SF_valid x) as V.
  destruct (Prim2SF x) as [s|s| |s m e]; try discriminate; intros _ Hb.
  - split; reflexivity.
  - pose proof (valid_finite_inv _ _ _ V) as [_ He].
    assert (Hpe : 0 < 2 ^ (e - emin)) by (apply Z.pow_pos_nonneg; lia).
    assert (Hle : 2 ^ (e - emin) <= 2 ^ 1073).
    { cbn [Zval] in Hb.
      assert (2 ^ (e - emin) <= Zpos m * 2 ^ (e - emin)) by nia.
      destruct s; cbn [cond_Zopp] in Hb; lia. }
    apply Z.pow_le_mono_r_iff in Hle; [|lia|lia].
    destruct (SFmul_4 s m e V) as (m' & e' & -> & Hv).
    { unfold SpecFloat.emin, prec, emax in *. lia. }
    split; [reflexivity|]. cbn [Zval]. rewrite Hv.
    destruct s; cbn [cond_Zopp]; ring.
Qed.

(** The delta [(Math.random() - 0.5) * 4] of a tick is a double from -2
    up to, and short of, 2. *)
Lemma delta_range (r : float) :
  (0 <=? r)%float = true -> (r <? 1)%float = true ->
  (-2 <=? (r - 0.5) * 4)%float = true /\ ((r - 0.5) * 4 <? 2)%float = true.
Proof.
  intros H0 H1.
  destruct (sub_half_range r H0 H1) as [Nx Bx].
  destruct (mul_4_Zval (r - 0.5)%float Nx ltac:(lia)) as [Nd Zd].
  rewrite leb_spec, ltb_spec.
  rewrite (SFleb_Zval (Prim2SF (-2)%float) _ (Prim2SF_valid _) (Prim2SF_valid _) eq_refl Nd).
  rewrite (SFltb_Zval _ (Prim2SF 2%float) (Prim2SF_valid _) (Prim2SF_valid _) Nd eq_refl).
  rewrite Zd.
  change (Prim2SF (-2)%float) with (S754_finite true 4503599627370496 (-51)).
  change (Prim2SF 2%float) with (S754_finite false 4503599627370496 (-51)).
  cbn [Zval cond_Zopp]. change (-51 - emin) with 1023.
  rewrite pow2_52_shift by lia. change (52 + 1023) with 1075. rewrite pow2_1075.
  split; [apply Z.leb_le|apply Z.ltb_lt]; lia.
Qed.

Lemma SFcompare_refl (x : spec_float) : x <> S754_nan -> SFcompare x x = Some Eq.
Proof.
  destruct x as [s|s| |s m e]; intros H; try congruence; cbn [SFcompare].
  - reflexivity.
  - destruct s; reflexivity.
  - destruct s; rewrite Z.compare_refl, Pos.compare_cont_refl; reflexivity.
Qed.

Lemma is_nan_spec (x : float) :
  is_nan x = match Prim2SF x with S754_nan => true | _ => false end.
Proof.
  unfold is_nan. rewrite FloatAxioms.eqb_spec. unfold SFeqb.
  destruct (Prim2SF x) as [s|s| |s m e] eqn:E; try reflexivity.
  all: match goal with |- context [SFcompare ?a ?a] =>
         rewrite (SFcompare_refl a ltac:(discriminate)) end; reflexivity.
Qed.

Lemma SFfinish_not_nan (s : bool) (m e : Z) : 0 <= m -> SFfinish s m e <> S754_nan.
Proof.
  destruct m as [|p|p]; cbn [SFfinish]; intros H; try lia; try discriminate.
  destruct (_ <=? _); discriminate.
Qed.

Lemma binary_normalize_not_nan (d e : Z) :
  binary_normalize prec emax d e false <> S754_nan.
Proof.
  assert (R : forall s m, binary_round prec emax s m e <> S754_nan).
  { intros s m. unfold binary_round.
    destruct (shl_align m e _) as [mz ez].
    destruct (binary_round_aux_spec s (Zpos mz) ez loc_Exact ltac:(lia)) as (r & Hr & _ & ->).
    apply SFfinish_not_nan. apply Z.div_pos; [|apply Z.pow_pos_nonneg; lia].
    assert (0 <= Zpos mz / 2 ^ Z.max 0 (fexp prec emax (Zdigits2 (Zpos mz) + ez) - ez))
      by (apply Z.div_pos; [lia|apply Z.pow_pos_nonneg; lia]).
    lia. }
  destruct d; cbn [binary_normalize]; [discriminate|apply R|apply R].
Qed.

(** Adding a number to what is not [NaN] never gives [NaN]. *)
Lemma add_not_nan (p d : float) :
  is_nan p = false -> isNumber (Prim2SF d) = true -> is_nan (p + d)%float = false.
Proof.
  rewrite !is_nan_spec, add_spec. unfold SF64add.
  destruct (Prim2SF p) as [sp|sp| |sp mp ep]; try discriminate;
    destruct (Prim2SF d) as [sd|sd| |sd md ed]; try discriminate; intros _ _;
    cbn [SFadd]; try reflexivity.
  - destruct sp, sd; reflexivity.
  - match goal with |- match ?b with S754_nan => _ | _ => _ end = _ =>
      pose proof (binary_normalize_not_nan _ _ : b <> S754_nan) as H; destruct b; congruence
    end.
Qed.





(** A double from [-2] up to, and short of, [2] is a number. *)
Lemma range_isNumber (d : float) :
  (-2 <=? d)%float = true -> (d <? 2)%float = true -> isNumber (Prim2SF d) = true.
Proof.
  rewrite leb_spec, ltb_spec.
  change (Prim2SF (-2)%float) with (S754_finite true 4503599627370496 (-51)).
  change (Prim2SF 2%float) with (S754_finite false 4503599627370496 (-51)).
  destruct (Prim2SF d) as [s|s| |s m e]; try reflexivity; try discriminate.
  destruct s; discriminate.
Qed.

(** [Math.max(1, x)]: [NaN] for [NaN], else the larger of 1 and [x]. *)
Lemma Math_max_1 (x : float) :
  Math_max 1 x = if is_nan x then nan else if (1 <? x)%float then x else 1%float.
Proof.
  unfold Math_max. change (is_nan 1) with false. change (classify 1) with PNormal.
  cbn [orb]. reflexivity.
Qed.



End Binary64.

(** * The properties of the specification *)

(** ** The alert check *)

Lemma directionOf_test (p next : Quote) :
  directionOf p next (if (price p <? price next)%float then up else down).
Proof.
  unfold directionOf. destruct (price p <? price next)%float; [left|right]; by split.
Qed.

Lemma alertChecked_test (previous : option Quote) (next : Quote) :
  alertChecked previous next
    match previous with
    | Some p =>
        if (ALERT_DELTA <=? abs (price next - price p))%float
        then [AddRecentAlert (symbol next)
                (if (price p <? price next)%float then up else down) (price next)]
        else []
    | None => []
    end.
Proof.
  unfold alertChecked, alertDue. destruct previous as [p|].
  - destruct (ALERT_DELTA <=? abs (price next - price p))%float eqn:E.
    + left. split; [by exists p|].
      exists p, (if (price p <? price next)%float then up else down).
      split; [reflexivity|]. split; [apply directionOf_test | reflexivity].
    + right. split; [|reflexivity].
      intros (p' & [= <-] & H). congruence.
  - right. split; [|reflexivity]. by intros (p' & [=] & _).
Qed.

Lemma onItem_log (item : Quote) (st : State) :
  log (onItem item st) = log st ++
    match latestPrices st !! symbol item with
    | Some p =>
        if (ALERT_DELTA <=? abs (price item - price p))%float
        then [AddRecentAlert (symbol item)
                (if (price p <? price item)%float then up else down) (price item)]
        else []
    | None => []
    end.
Proof.
  unfold onItem. destruct (latestPrices st !! symbol item) as [p|]; simpl.
  - destruct (_ <=? _)%float; simpl; [reflexivity | by rewrite app_nil_r].
  - by rewrite app_nil_r.
Qed.

Lemma onItem_latestPrices (item : Quote) (st : State) :
  latestPrices (onItem item st) = <[symbol item := item]> (latestPrices st).
Proof.
  unfold onItem. destruct (latestPrices st !! symbol item) as [p|]; [|reflexivity].
  by destruct (_ <=? _)%float.
Qed.

Lemma tickSymbol_Some (now : string) (r : float) (sym : string) (st : State) (p : Quote) :
  latestPrices st !! sym = Some p ->
  exists st',
    tickSymbol now r sym st = Done st' /\
    latestPrices st' = <[sym := tickQuote now r sym p]> (latestPrices st) /\
    chart st' = chart st /\ chartSymbol st' = chartSymbol st /\
    chartHistory st' = chartHistory st /\ usingMockFeed st' = usingMockFeed st /\
    log st' = log st ++
      (if (ALERT_DELTA <=? abs (price (tickQuote now r sym p) - price p))%float
       then [AddRecentAlert sym
               (if (price p <? price (tickQuote now r sym p))%float then up else down)
               (price (tickQuote now r sym p))]
       else []).
Proof.
  intros Hp. unfold tickSymbol. rewrite Hp. eexists. split; [reflexivity|].
  change (change (tickQuote now r sym p))
    with (price (tickQuote now r sym p) - price p)%float.
  rewrite sub_pos_ltb.
  destruct (_ <=? _)%float; simpl; repeat split; try reflexivity.
  by rewrite app_nil_r.
Qed.

(** C1. Live path ([onItem]) and mock path ([tickSymbol]): the handler
    appends to the log exactly what the alert check of the stored previous
    quote and the new quote asks for: an alert if and only if a previous
    quote exists and [Math.abs(next.price - previous.price) >= 1.5],
    computed on doubles as the code computes it, [up] exactly when
    [next.price > previous.price], carrying the new price. The mock path
    tests its [change], which is that difference, and [change > 0], which
    in double arithmetic is [newPrice > prev.price]; its callback runs for
    the tracked symbols, and a missing previous quote ends it with a
    throw, before any alert. *)
Theorem alert_check_live_and_mock (st : State) :
  (forall next : Quote,
     exists emitted,
       log (onItem next st) = log st ++ emitted /\
       alertChecked (latestPrices st !! symbol next) next emitted)
  /\
  (forall (now : string) (r : float) (sym : string),
     sym ∈ TRACKED_SYMBOLS ->
     match latestPrices st !! sym with
     | None => tickSymbol now r sym st = Threw "TypeError" st
     | Some p =>
         let next := tickQuote now r sym p in
         exists st' emitted,
           tickSymbol now r sym st = Done st' /\
           latestPrices st' !! sym = Some next /\
           log st' = log st ++ emitted /\
           alertChecked (Some p) next emitted
     end).
Proof.
  split.
  - intros next. eexists. split; [apply onItem_log | apply alertChecked_test].
  - intros now r sym _. destruct (latestPrices st !! sym) as [p|] eqn:Hp.
    + destruct (tickSymbol_Some now r sym st p Hp)
        as (st' & Hrun & Hm & _ & _ & _ & _ & Hlog).
      exists st'. eexists. split; [exact Hrun|].
      split; [rewrite Hm; apply lookup_insert_eq|].
      split; [exact Hlog|].
      apply (alertChecked_test (Some p) (tickQuote now r sym p)).
    + unfold tickSymbol. by rewrite Hp.
Qed.

(** ** The history buffer *)

Lemma pushPoint_below (h : list HistoryPoint) (p : HistoryPoint) :
  (List.length h < HISTORY_CAP)%nat -> pushPoint h p = h ++ [p].
Proof.
  intros H. unfold pushPoint. rewrite length_app. simpl.
  destruct (Nat.ltb_spec HISTORY_CAP (List.length h + 1)); [lia | reflexivity].
Qed.

Lemma pushPoint_full (h : list HistoryPoint) (p : HistoryPoint) :
  List.length h = HISTORY_CAP -> pushPoint h p = tail h ++ [p].
Proof.
  intros H. unfold pushPoint. rewrite length_app. simpl.
  destruct (Nat.ltb_spec HISTORY_CAP (List.length h + 1)); [|lia].
  destruct h; [discriminate H | reflexivity].
Qed.

Lemma pushPoint_length (h : list HistoryPoint) (p : HistoryPoint) :
  (List.length h <= HISTORY_CAP)%nat -> (List.length (pushPoint h p) <= HISTORY_CAP)%nat.
Proof.
  intros H. destruct (decide (List.length h = HISTORY_CAP)) as [E|E].
  - rewrite pushPoint_full by exact E. destruct h; [discriminate E|].
    simpl in *. rewrite length_app. simpl. lia.
  - rewrite pushPoint_below by lia. rewrite length_app. simpl. lia.
Qed.

(** Recording a run of points leaves the last [HISTORY_CAP] of them, in
    the order recorded. *)
Lemma pushPoint_foldl (pts h : list HistoryPoint) :
  (List.length h <= HISTORY_CAP)%nat ->
  foldl pushPoint h pts = drop (List.length (h ++ pts) - HISTORY_CAP) (h ++ pts).
Proof.
  revert h. induction pts as [|p pts IH]; intros h H; simpl.
  - rewrite app_nil_r. replace (List.length h - HISTORY_CAP)%nat with 0%nat by lia.
    reflexivity.
  - rewrite IH by (by apply pushPoint_length).
    destruct (decide (List.length h = HISTORY_CAP)) as [E|E].
    + rewrite pushPoint_full by exact E. destruct h as [|x h]; [discriminate E|].
      assert (Hh : List.length h = 19%nat)
        by (unfold HISTORY_CAP in E; simpl in E; lia).
      cbn [tail]. rewrite <- !app_assoc. cbn [app].
      rewrite length_cons, !length_app, length_cons, Hh. unfold HISTORY_CAP.
      replace (19 + S (List.length pts) - 20)%nat with (List.length pts) by lia.
      replace (S (19 + S (List.length pts)) - 20)%nat
        with (S (List.length pts)) by lia.
      reflexivity.
    + rewrite pushPoint_below by lia. rewrite <- app_assoc. reflexivity.
Qed.

Lemma updateChart_history (sym : string) (st : State) :
  chartHistory (updateChart sym st) =
    match chart st, latestPrices st !! sym with
    | Some _, Some data => pushPoint (chartHistory st) (mkPoint (ts data) (price data))
    | _, _ => chartHistory st
    end.
Proof.
  unfold updateChart. destruct (chart st); [|reflexivity].
  by destruct (latestPrices st !! sym).
Qed.

Lemma updateChart_bound (sym : string) (st : State) :
  (List.length (chartHistory st) <= HISTORY_CAP)%nat ->
  (List.length (chartHistory (updateChart sym st)) <= HISTORY_CAP)%nat.
Proof.
  intros H. rewrite updateChart_history. destruct (chart st); [|exact H].
  destruct (latestPrices st !! sym); [by apply pushPoint_length | exact H].
Qed.

Lemma onItem_chartHistory (item : Quote) (st : State) :
  chartHistory (onItem item st) = chartHistory st.
Proof.
  unfold onItem. destruct (latestPrices st !! symbol item); [|reflexivity].
  by destruct (_ <=? _)%float.
Qed.

Lemma onItems_chartHistory (items : list Quote) (st : State) :
  chartHistory (foldl (fun s item => onItem item s) st items) = chartHistory st.
Proof.
  revert st. induction items as [|item items IH]; intros st; simpl; [reflexivity|].
  rewrite IH. apply onItem_chartHistory.
Qed.

Lemma tickSymbol_chartHistory (now : string) (r : float) (sym : string) (st st' : State) :
  after (tickSymbol now r sym st) = Some st' -> chartHistory st' = chartHistory st.
Proof.
  unfold tickSymbol. destruct (latestPrices st !! sym) as [p|]; simpl.
  - intros [= <-]. by destruct (_ <=? _)%float.
  - by intros [= <-].
Qed.

Lemma tickEach_chartHistory (now : string) (rnd : nat -> float) (syms : list string) :
  forall (idx : nat) (st st' : State),
    after (tickEach now rnd idx syms st) = Some st' -> chartHistory st' = chartHistory st.
Proof.
  induction syms as [|sym syms IH]; intros idx st st'; simpl.
  - by intros [= <-].
  - destruct (tickSymbol now (rnd idx) sym st) as [st1|err st1|] eqn:E; intros H.
    + rewrite (IH _ _ _ H). apply (tickSymbol_chartHistory now (rnd idx) sym).
      by rewrite E.
    + apply (tickSymbol_chartHistory now (rnd idx) sym). by rewrite E.
    + discriminate H.
Qed.

Lemma startMockFeed_bound (now : string) (st : State) :
  (List.length (chartHistory st) <= HISTORY_CAP)%nat ->
  (List.length (chartHistory (startMockFeed now st)) <= HISTORY_CAP)%nat.
Proof.
  intros H. unfold startMockFeed. simpl.
  destruct (size (latestPrices st) =? 0)%nat; simpl; [|exact H].
  by apply updateChart_bound.
Qed.

Lemma step_bound (a : Action) (st st' : State) :
  after (step a st) = Some st' ->
  (List.length (chartHistory st) <= HISTORY_CAP)%nat ->
  (List.length (chartHistory st') <= HISTORY_CAP)%nat.
Proof.
  intros Hstep H. destruct a as [throws now| |parsed|now|now|now rnd|sym];
    simpl in Hstep.
  - injection Hstep as <-. unfold connectWebSocket.
    destruct throws; [by apply startMockFeed_bound | exact H].
  - by injection Hstep as <-.
  - unfold onMessage in Hstep.
    destruct parsed as [msg|]; [|by injection Hstep as <-].
    assert (Hmsg :
      after (if negb (isPriceUpdate (getProp "type" msg)) then Done st
             else match getProp "data" msg with
                  | Some (JArr items) =>
                      match mapM asQuote items with
                      | Some quotes =>
                          let st1 := foldl (fun s item => onItem item s) st quotes in
                          Done (updateChart (chartSymbol st1) (renderStocksTable st1))
                      | None => IllTyped
                      end
                  | _ => Threw "TypeError" st
                  end) = Some st' ->
      (List.length (chartHistory st') <= HISTORY_CAP)%nat).
    { destruct (negb _); [by intros [= <-]|].
      destruct (getProp "data" msg) as [[| | | |items|]|];
        try (by intros [= <-]).
      destruct (mapM asQuote items) as [quotes|]; [|discriminate].
      intros [= <-]. apply updateChart_bound. simpl.
      by rewrite onItems_chartHistory. }
    destruct msg; exact (Hmsg Hstep).
  - injection Hstep as <-. unfold onClose.
    destruct (negb _); [by apply startMockFeed_bound | exact H].
  - injection Hstep as <-. unfold onError.
    destruct (negb _); [by apply startMockFeed_bound | exact H].
  - unfold tick in Hstep.
    destruct (tickEach now rnd 0 TRACKED_SYMBOLS st) as [st1|err st1|] eqn:E;
      simpl in Hstep; [| |discriminate].
    + injection Hstep as <-. apply updateChart_bound. simpl.
      rewrite (tickEach_chartHistory now rnd TRACKED_SYMBOLS 0 st st1); [exact H|].
      by rewrite E.
    + injection Hstep as <-.
      rewrite (tickEach_chartHistory now rnd TRACKED_SYMBOLS 0 st st1); [exact H|].
      by rewrite E.
  - injection Hstep as <-. unfold clickRow. apply updateChart_bound. simpl.
    unfold HISTORY_CAP. lia.
Qed.

Lemma reachable_bound (st : State) :
  reachable st -> (List.length (chartHistory st) <= HISTORY_CAP)%nat.
Proof.
  induction 1 as [hasChart|a st st' _ IH Hstep].
  - simpl. unfold HISTORY_CAP. lia.
  - exact (step_bound a st st' Hstep IH).
Qed.

(** C4. The history buffer never holds more than 20 points in a state the
    page can reach; a call of [updateChart] that records a point (a chart
    exists, the symbol has a quote) puts it last, after dropping the one
    oldest point when the buffer was full; and so a run of recorded points
    leaves the last 20 of them, oldest first. *)
Theorem history_bounded_fifo :
  (forall st : State, reachable st ->
     (List.length (chartHistory st) <= 20)%nat)
  /\
  (forall (st : State) (sym : string) (c : Chart) (data : Quote),
     chart st = Some c -> latestPrices st !! sym = Some data ->
     (List.length (chartHistory st) <= 20)%nat ->
     let p := mkPoint (ts data) (price data) in
     chartHistory (updateChart sym st) =
       (if decide (List.length (chartHistory st) = 20%nat)
        then tail (chartHistory st) else chartHistory st) ++ [p]
     /\ last (chartHistory (updateChart sym st)) = Some p
     /\ (List.length (chartHistory (updateChart sym st)) <= 20)%nat)
  /\
  (forall pts : list HistoryPoint,
     foldl pushPoint [] pts = drop (List.length pts - 20) pts).
Proof.
  split; [exact reachable_bound|]. split.
  - intros st sym c data Hc Hd Hlen p.
    assert (E : chartHistory (updateChart sym st) =
                (if decide (List.length (chartHistory st) = 20%nat)
                 then tail (chartHistory st) else chartHistory st) ++ [p]).
    { rewrite updateChart_history, Hc, Hd. fold p. case_decide as E.
      - by apply pushPoint_full.
      - apply pushPoint_below. unfold HISTORY_CAP. lia. }
    split; [exact E|]. split.
    + rewrite E. apply last_snoc.
    + by apply updateChart_bound.
  - intros pts. apply (pushPoint_foldl pts []). simpl. lia.
Qed.

(** C10. [updateChart] for a symbol without a stored quote returns the
    state it was given: history buffer, chart data and log are untouched,
    and nothing is thrown. The selected symbol is one such [sym]. *)
Theorem updateChart_without_quote (st : State) (sym : string) :
  latestPrices st !! sym = None -> updateChart sym st = st.
Proof.
  intros H. unfold updateChart. rewrite H. by destruct (chart st).
Qed.

(** ** Messages that are dropped *)

Lemma isPriceUpdate_other (t : Json) :
  t <> JStr "price_update" -> isPriceUpdate (Some t) = false.
Proof.
  intros H. destruct t as [| | |s| |]; try reflexivity. simpl.
  apply String.eqb_neq. intros ->. by apply H.
Qed.

(** Whatever was parsed, short of [null]: when its [type] is not the
    string ["price_update"] (or is missing) the listener returns at once. *)
Lemma onMessage_not_price_update (msg : Json) (st : State) :
  msg <> JNull -> notPriceUpdate msg -> onMessage (Some msg) st = Done st.
Proof.
  unfold notPriceUpdate. intros Hnull Htype. unfold onMessage. rewrite Htype. simpl.
  by destruct msg.
Qed.

(** The parsed value [null] has no [type] to read: [msg.type] throws. *)
Lemma onMessage_null (st : State) :
  onMessage (Some JNull) st = Threw "TypeError" st.
Proof. reflexivity. Qed.

(** A text that [JSON.parse] rejects, and every parsed value but [null]
    whose [type] is not ["price_update"], end the listener with the state
    it started from and a normal return. *)
Lemma dropped_message_noop (st : State) (parsed : option Json) :
  parsed = None \/
  (exists msg, parsed = Some msg /\ msg <> JNull /\ notPriceUpdate msg) ->
  onMessage parsed st = Done st /\ step (Message parsed) st = Done st.
Proof.
  intros [-> | (msg & -> & Hnull & Htype)]; [by split|].
  pose proof (onMessage_not_price_update msg st Hnull Htype) as E. by split.
Qed.

(** C7, at its failing input. The message text [null] parses, to the
    value [null], whose [type] is not ["price_update"]: the claim has it
    dropped in silence, and the listener throws a [TypeError] at
    [msg.type], outside its [try]; store and log are as before. The
    messages beside it are dropped as claimed: a text that does not
    parse, an object without [type] or with another [type], a number, a
    string, a boolean, an array. *)
Theorem null_message_throws (st : State) :
  notPriceUpdate JNull /\
  onMessage (Some JNull) st = Threw "TypeError" st /\
  step (Message (Some JNull)) st = Threw "TypeError" st /\
  onMessage None st = Done st /\
  onMessage (Some (JObj [])) st = Done st /\
  onMessage (Some (JObj [("type", JStr "ping")])) st = Done st /\
  onMessage (Some (JObj [("type", JNull)])) st = Done st /\
  onMessage (Some (JNum 5)) st = Done st /\
  onMessage (Some (JStr "x")) st = Done st /\
  onMessage (Some (JBool true)) st = Done st /\
  onMessage (Some (JArr [])) st = Done st.
Proof. repeat split. Qed.

(** ** Fallback to the mock feed *)

Lemma count_app (f : Effect -> bool) (l1 l2 : list Effect) :
  count f (l1 ++ l2) = (count f l1 + count f l2)%nat.
Proof. unfold count. by rewrite List.filter_app, length_app. Qed.

Lemma updateChart_log (sym : string) (st : State) :
  exists l, log (updateChart sym st) = log st ++ l /\
            count isSetInterval l = 0%nat /\ count isFallbackStatus l = 0%nat.
Proof.
  unfold updateChart. destruct (chart st).
  - destruct (latestPrices st !! sym).
    + eexists. split; [reflexivity|]. by split.
    + exists []. by rewrite app_nil_r.
  - exists []. by rewrite app_nil_r.
Qed.

Lemma startMockFeed_usingMockFeed (now : string) (st : State) :
  usingMockFeed (startMockFeed now st) = true.
Proof.
  unfold startMockFeed. simpl. destruct (size (latestPrices st) =? 0)%nat; simpl.
  - unfold updateChart. simpl. destruct (chart st); [|reflexivity].
    by destruct (_ !! _).
  - reflexivity.
Qed.

Lemma startMockFeed_counts (now : string) (st : State) :
  count isSetInterval (log (startMockFeed now st)) = S (count isSetInterval (log st))
  /\ count isFallbackStatus (log (startMockFeed now st))
     = S (count isFallbackStatus (log st)).
Proof.
  unfold startMockFeed.
  set (st1 := setWsStatus "error" "LIVE DATA: DEMO" (set_usingMockFeed true st)).
  assert (H1 : log st1 = log st ++ [SetWsStatus "error" "LIVE DATA: DEMO"])
    by reflexivity.
  destruct (size (latestPrices st1) =? 0)%nat.
  - set (st' := set_latestPrices _ st1).
    destruct (updateChart_log (chartSymbol st') (renderStocksTable st'))
      as (l & Hl & Hl1 & Hl2).
    cbn [log emit]. rewrite Hl. cbn [log renderStocksTable emit].
    change (log st') with (log st1). rewrite H1, !count_app, Hl1, Hl2.
    cbn. lia.
  - cbn [log emit]. rewrite H1, !count_app. cbn. lia.
Qed.

Lemma failure_in_fallback (a : Action) (st : State) :
  isFailure a = true -> usingMockFeed st = true -> step a st = Done st.
Proof.
  intros Ha Hst. destruct a; try discriminate Ha; simpl.
  - unfold onClose. by rewrite Hst.
  - unfold onError. by rewrite Hst.
Qed.

Lemma failures_in_fallback (sigs : list Action) (st : State) :
  forallb isFailure sigs = true -> usingMockFeed st = true -> run sigs st = Some st.
Proof.
  induction sigs as [|a sigs IH]; intros Hs Hst; [reflexivity|].
  simpl in Hs. apply andb_true_iff in Hs as [Ha Hs]. simpl.
  rewrite failure_in_fallback by assumption. simpl. by apply IH.
Qed.

Lemma first_failure (a : Action) (st : State) :
  isFailure a = true -> usingMockFeed st = false ->
  exists now, step a st = Done (startMockFeed now st).
Proof.
  intros Ha Hst. destruct a as [| | |now|now| |]; try discriminate Ha;
    exists now; simpl.
  - unfold onClose. by rewrite Hst.
  - unfold onError. by rewrite Hst.
Qed.

(** C3. On a socket whose mock feed is not yet running, any non-empty run
    of ["close"] and ["error"] events starts the interval once and sets
    the status to the demo feed once: the first event does both (it runs
    [startMockFeed]), the state after the whole run is the state after the
    first event, and any further such event leaves that state as it is. *)
Theorem fallback_exactly_once (st : State) (sigs : list Action) :
  usingMockFeed st = false -> sigs <> [] -> forallb isFailure sigs = true ->
  exists st',
    run sigs st = Some st' /\
    usingMockFeed st' = true /\
    count isSetInterval (log st') = S (count isSetInterval (log st)) /\
    count isFallbackStatus (log st') = S (count isFallbackStatus (log st)) /\
    (exists first, head sigs = Some first /\ step first st = Done st') /\
    (forall a, isFailure a = true -> step a st' = Done st').
Proof.
  intros Hst Hne Hs. destruct sigs as [|a sigs]; [done|].
  simpl in Hs. apply andb_true_iff in Hs as [Ha Hs].
  destruct (first_failure a st Ha Hst) as (now & Hstep).
  pose proof (startMockFeed_usingMockFeed now st) as Hmock.
  destruct (startMockFeed_counts now st) as [Hc1 Hc2].
  exists (startMockFeed now st). split.
  { simpl. rewrite Hstep. simpl. by apply failures_in_fallback. }
  split; [exact Hmock|]. split; [exact Hc1|]. split; [exact Hc2|]. split.
  - exists a. by split.
  - intros b Hb. by apply failure_in_fallback.
Qed.

(** ** The mock feed: seeding and ticks *)

Lemma TRACKED_SYMBOLS_NoDup : NoDup TRACKED_SYMBOLS.
Proof. compute_done. Qed.

Lemma updateChart_latestPrices (sym : string) (st : State) :
  latestPrices (updateChart sym st) = latestPrices st.
Proof.
  unfold updateChart. destruct (chart st); [|reflexivity].
  by destruct (latestPrices st !! sym).
Qed.

Lemma seedEach_lookup (now : string) (syms : list string) :
  forall (idx : nat) (m : gmap string Quote),
    NoDup syms ->
    (forall i sym, syms !! i = Some sym ->
       seedEach now idx syms m !! sym = Some (seedQuote now (idx + i) sym))
    /\ (forall s, s ∉ syms -> seedEach now idx syms m !! s = m !! s).
Proof.
  induction syms as [|sym0 syms IH]; intros idx m Hnd.
  - split; [by intros i sym H | reflexivity].
  - apply NoDup_cons in Hnd as [Hnotin Hnd]. simpl.
    destruct (IH (S idx) (<[sym0 := seedQuote now idx sym0]> m) Hnd) as [IH1 IH2].
    split.
    + intros [|i] sym H; simpl in H.
      * injection H as <-. rewrite IH2 by exact Hnotin.
        rewrite Nat.add_0_r. apply lookup_insert_eq.
      * rewrite Nat.add_succ_r. by apply IH1.
    + intros s Hs. apply not_elem_of_cons in Hs as [Hne Hs].
      rewrite IH2 by exact Hs. by apply lookup_insert_ne.
Qed.

Lemma tickEach_Done (now : string) (rnd : nat -> float) (syms : list string) :
  forall (idx : nat) (st : State),
    NoDup syms ->
    (forall sym, sym ∈ syms -> is_Some (latestPrices st !! sym)) ->
    exists st',
      tickEach now rnd idx syms st = Done st' /\
      (forall i sym p, syms !! i = Some sym -> latestPrices st !! sym = Some p ->
         latestPrices st' !! sym = Some (tickQuote now (rnd (idx + i)%nat) sym p)) /\
      (forall s, s ∉ syms -> latestPrices st' !! s = latestPrices st !! s).
Proof.
  induction syms as [|sym0 syms IH]; intros idx st Hnd Hall.
  - exists st. split; [reflexivity|]. split; [by intros i sym p H | reflexivity].
  - apply NoDup_cons in Hnd as [Hnotin Hnd].
    destruct (Hall sym0) as [p0 Hp0]; [set_solver|].
    destruct (tickSymbol_Some now (rnd idx) sym0 st p0 Hp0) as (st1 & Hrun & Hm & _).
    destruct (IH (S idx) st1 Hnd) as (st' & Hrest & Hin & Hout).
    { intros sym Hsym. rewrite Hm. rewrite lookup_insert_ne by set_solver.
      apply Hall. set_solver. }
    exists st'. split; [simpl; by rewrite Hrun|]. split.
    + intros [|i] sym p H Hp; simpl in H.
      * injection H as <-. rewrite Hout by exact Hnotin.
        rewrite Hm, lookup_insert_eq, Nat.add_0_r. congruence.
      * rewrite Nat.add_succ_r. apply Hin; [exact H|].
        rewrite Hm, lookup_insert_ne; [exact Hp|].
        intros <-. apply Hnotin. by eapply list_elem_of_lookup_2.
    + intros s Hs. apply not_elem_of_cons in Hs as [Hne Hs].
      rewrite Hout by exact Hs. rewrite Hm. by apply lookup_insert_ne.
Qed.

(** With a quote stored for every tracked symbol a tick runs to its end,
    and writes for each symbol the quote made from the one it found. *)
Lemma tick_Done (now : string) (rnd : nat -> float) (st : State) :
  (forall sym, sym ∈ TRACKED_SYMBOLS -> is_Some (latestPrices st !! sym)) ->
  exists st',
    tick now rnd st = Done st' /\
    forall i sym p, TRACKED_SYMBOLS !! i = Some sym -> latestPrices st !! sym = Some p ->
      latestPrices st' !! sym = Some (tickQuote now (rnd i) sym p).
Proof.
  intros Hall.
  destruct (tickEach_Done now rnd TRACKED_SYMBOLS 0 st TRACKED_SYMBOLS_NoDup Hall)
    as (st1 & Hrun & Hin & _).
  eexists. split; [unfold tick; by rewrite Hrun|].
  intros i sym p Hi Hp. rewrite updateChart_latestPrices. simpl. by apply Hin.
Qed.

(** A tick throws as soon as it comes to a tracked symbol without a quote. *)
Lemma tickEach_Threw (now : string) (rnd : nat -> float) (syms : list string) :
  forall (idx : nat) (st : State) (sym : string),
    sym ∈ syms -> latestPrices st !! sym = None ->
    exists st', tickEach now rnd idx syms st = Threw "TypeError" st'.
Proof.
  induction syms as [|sym0 syms IH]; intros idx st sym Hin Hnone; [set_solver|].
  simpl. destruct (latestPrices st !! sym0) as [p0|] eqn:Hp0.
  - destruct (tickSymbol_Some now (rnd idx) sym0 st p0 Hp0) as (st1 & Hrun & Hm & _).
    rewrite Hrun. apply (IH (S idx) st1 sym).
    + apply elem_of_cons in Hin as [->|Hin]; [congruence | exact Hin].
    + rewrite Hm. rewrite lookup_insert_ne; [exact Hnone | congruence].
  - exists st. unfold tickSymbol. by rewrite Hp0.
Qed.

Lemma tick_Threw (now : string) (rnd : nat -> float) (st : State) (sym : string) :
  sym ∈ TRACKED_SYMBOLS -> latestPrices st !! sym = None ->
  exists st', tick now rnd st = Threw "TypeError" st'.
Proof.
  intros Hin Hnone.
  destruct (tickEach_Threw now rnd TRACKED_SYMBOLS 0 st sym Hin Hnone) as (st' & H).
  exists st'. unfold tick. by rewrite H.
Qed.


(** A tick makes no [NaN] price from a price that is a number. *)
Lemma tickQuote_price_not_nan (now : string) (r : float) (sym : string) (prev : Quote) :
  (0 <=? r)%float = true -> (r <? 1)%float = true ->
  is_nan (price prev) = false -> is_nan (price (tickQuote now r sym prev)) = false.
Proof.
  intros H0 H1 Hp. destruct (delta_range r H0 H1) as [Hlo Hhi].
  assert (Hx : is_nan (price prev + (r - 0.5) * 4)%float = false)
    by (apply add_not_nan; [exact Hp | by apply range_isNumber]).
  unfold tickQuote. cbn [price]. rewrite Math_max_1, Hx.
  destruct (1 <? _)%float; [exact Hx | reflexivity].
Qed.

Lemma tickSymbol_stores (now : string) (r : float) (sym : string) (st : State) (prev : Quote) :
  latestPrices st !! sym = Some prev ->
  exists st', tickSymbol now r sym st = Done st' /\
              latestPrices st' !! sym = Some (tickQuote now r sym prev).
Proof.
  intros Hp. destruct (tickSymbol_Some now r sym st prev Hp) as (st' & Hrun & Hm & _).
  exists st'. split; [exact Hrun|]. rewrite Hm. apply lookup_insert_eq.
Qed.


(** ** Entries of a live message *)

Lemma asQuote_quoteJson (q : Quote) : asQuote (quoteJson q) = Some q.
Proof.
  destruct q as [s p c pc t]. unfold asQuote, quoteJson. cbn.
  by rewrite andb_false_r.
Qed.

Lemma mapM_asQuote (quotes : list Quote) :
  mapM asQuote (map quoteJson quotes) = Some quotes.
Proof.
  induction quotes as [|q quotes IH]; [reflexivity|].
  cbn [map mapM]. rewrite asQuote_quoteJson, IH. reflexivity.
Qed.

(** A message of well-formed entries runs the entries in order, then
    draws the table and the chart. *)
Lemma onMessage_priceUpdate (quotes : list Quote) (st : State) :
  onMessage (Some (priceUpdate quotes)) st =
    (let st1 := foldl (fun s item => onItem item s) st quotes in
     Done (updateChart (chartSymbol st1) (renderStocksTable st1))).
Proof.
  unfold onMessage, priceUpdate. cbn [getProp field find fst snd String.eqb].
  simpl. by rewrite mapM_asQuote.
Qed.

Lemma onItem_frame (item : Quote) (st : State) :
  chart (onItem item st) = chart st /\
  chartSymbol (onItem item st) = chartSymbol st /\
  usingMockFeed (onItem item st) = usingMockFeed st.
Proof.
  unfold onItem. destruct (latestPrices st !! symbol item); [|done].
  by destruct (_ <=? _)%float.
Qed.

Lemma stocksRows_ext (st1 st2 : State) :
  chartSymbol st1 = chartSymbol st2 ->
  (forall sym, sym ∈ TRACKED_SYMBOLS ->
     latestPrices st1 !! sym = latestPrices st2 !! sym) ->
  stocksRows st1 = stocksRows st2.
Proof.
  intros Hsel. unfold stocksRows. generalize TRACKED_SYMBOLS.
  intros l H. apply list_omap_ext.
  induction l as [|sym l IH]; constructor.
  - unfold rowOf. rewrite Hsel, (H sym); [reflexivity|]. apply list_elem_of_here.
  - apply IH. intros s Hs. apply H. by apply list_elem_of_further.
Qed.

(** C2, as the code has it. An entry whose symbol is not tracked is
    stored under its symbol like any other; the quotes of all other
    symbols, so those of the tracked ones and the rows of the table, the
    chart and its history stay as they were; and the alert check runs on
    it as on a tracked symbol, on doubles: an alert if and only if an
    entry of that symbol was stored before and
    [Math.abs(item.price - prev.price) >= 1.5]. The symbol ["__proto__"]
    is set apart: JavaScript takes an assignment to that key as a change
    of the prototype of [latestPrices], so the store gains no key for it. *)
Theorem untracked_entry_stored (st : State) (item : Quote) :
  symbol item ∉ TRACKED_SYMBOLS -> symbol item <> "__proto__" ->
  latestPrices (onItem item st) = <[symbol item := item]> (latestPrices st) /\
  (forall sym, sym <> symbol item ->
     latestPrices (onItem item st) !! sym = latestPrices st !! sym) /\
  (forall sym, sym ∈ TRACKED_SYMBOLS ->
     latestPrices (onItem item st) !! sym = latestPrices st !! sym) /\
  stocksRows (onItem item st) = stocksRows st /\
  chart (onItem item st) = chart st /\
  chartHistory (onItem item st) = chartHistory st /\
  exists emitted,
    log (onItem item st) = log st ++ emitted /\
    alertChecked (latestPrices st !! symbol item) item emitted.
Proof.
  intros Hun _. destruct (onItem_frame item st) as (Hc & Hsel & _).
  assert (Hother : forall sym, sym <> symbol item ->
            latestPrices (onItem item st) !! sym = latestPrices st !! sym).
  { intros sym Hne. rewrite onItem_latestPrices. by apply lookup_insert_ne. }
  assert (Htracked : forall sym, sym ∈ TRACKED_SYMBOLS ->
            latestPrices (onItem item st) !! sym = latestPrices st !! sym).
  { intros sym Hin. apply Hother. intros ->. by apply Hun. }
  split; [apply onItem_latestPrices|]. split; [exact Hother|].
  split; [exact Htracked|]. split; [by apply stocksRows_ext|].
  split; [exact Hc|]. split; [apply onItem_chartHistory|].
  eexists. split; [apply onItem_log | apply alertChecked_test].
Qed.

(** C2, as stated, fails: on the fresh store an entry for ["GOOG"], which
    is not tracked, is stored, and a second one 2 above it raises an
    alert. *)
Lemma untracked_entry_changes_store :
  (symbol (mkQuote "GOOG" 10 0 0 "t0") ∉ TRACKED_SYMBOLS) /\
  latestPrices (initial true) !! "GOOG" = None /\
  latestPrices (onItem (mkQuote "GOOG" 10 0 0 "t0") (initial true)) !! "GOOG"
    = Some (mkQuote "GOOG" 10 0 0 "t0") /\
  latestPrices (onItem (mkQuote "GOOG" 10 0 0 "t0") (initial true))
    <> latestPrices (initial true) /\
  log (onItem (mkQuote "GOOG" 12 2 20 "t1")
         (onItem (mkQuote "GOOG" 10 0 0 "t0") (initial true)))
    = [AddRecentAlert "GOOG" up 12].
Proof.
  split; [compute_done|]. split; [reflexivity|].
  split; [reflexivity|]. split; [|reflexivity].
  intros H. apply (f_equal (fun m => m !! "GOOG")) in H. discriminate H.
Qed.

(** ** Derived fields of a stored quote *)

Lemma startMockFeed_seeds (now : string) (st : State) (i : nat) (sym : string) :
  size (latestPrices st) = 0%nat -> TRACKED_SYMBOLS !! i = Some sym ->
  latestPrices (startMockFeed now st) !! sym = Some (seedQuote now i sym).
Proof.
  intros Hsize Hi. unfold startMockFeed. cbn [latestPrices emit].
  change (latestPrices (setWsStatus "error" "LIVE DATA: DEMO"
                          (set_usingMockFeed true st)))
    with (latestPrices st).
  rewrite Hsize. cbn [Nat.eqb]. rewrite updateChart_latestPrices.
  cbn [latestPrices renderStocksTable emit set_latestPrices].
  by apply (seedEach_lookup now TRACKED_SYMBOLS 0 (latestPrices st)
              TRACKED_SYMBOLS_NoDup).
Qed.

(** C6, as the code has it. The mock feed keeps the derived fields: the
    quotes it seeds on an empty store have change and percent change 0;
    the callback of a tick, and so a whole tick over a store with every
    tracked symbol, stores a quote whose change is the double
    [price - previousPrice], for the price stored before, and whose
    percent change is the double [change / previousPrice * 100]: rounded
    as doubles are, and an infinity or [NaN] over a previous price of 0.
    The live path stores each entry as it came, with the change and
    percent change the sender put in it. *)
Theorem derived_fields_by_path :
  (forall (now : string) (st : State) (sym : string),
     size (latestPrices st) = 0%nat -> sym ∈ TRACKED_SYMBOLS ->
     exists q, latestPrices (startMockFeed now st) !! sym = Some q /\
               change q = 0%float /\ percentChange q = 0%float)
  /\
  (forall (now : string) (r : float) (sym : string) (st : State) (prev : Quote),
     latestPrices st !! sym = Some prev ->
     exists st' q,
       tickSymbol now r sym st = Done st' /\
       latestPrices st' !! sym = Some q /\
       change q = (price q - price prev)%float /\
       percentChange q = (change q / price prev * 100)%float)
  /\
  (forall (now : string) (rnd : nat -> float) (st : State),
     (forall sym, sym ∈ TRACKED_SYMBOLS -> is_Some (latestPrices st !! sym)) ->
     exists st',
       tick now rnd st = Done st' /\
       forall sym prev,
         sym ∈ TRACKED_SYMBOLS -> latestPrices st !! sym = Some prev ->
         exists q, latestPrices st' !! sym = Some q /\
                   change q = (price q - price prev)%float /\
                   percentChange q = (change q / price prev * 100)%float)
  /\
  (forall (st : State) (item : Quote),
     latestPrices (onItem item st) !! symbol item = Some item).
Proof.
  split; [|split; [|split]].
  - intros now st sym Hsize Hin.
    apply list_elem_of_lookup_1 in Hin as [i Hi].
    exists (seedQuote now i sym). split; [by apply startMockFeed_seeds | by split].
  - intros now r sym st prev Hp.
    destruct (tickSymbol_stores now r sym st prev Hp) as (st' & Hrun & Hq).
    exists st', (tickQuote now r sym prev). split; [exact Hrun|].
    split; [exact Hq | by split].
  - intros now rnd st Hall. destruct (tick_Done now rnd st Hall) as (st' & Hrun & Hq).
    exists st'. split; [exact Hrun|]. intros sym prev Hin Hp.
    apply list_elem_of_lookup_1 in Hin as [i Hi].
    exists (tickQuote now (rnd i) sym prev). split; [by apply Hq | by split].
  - intros st item. rewrite onItem_latestPrices. apply lookup_insert_eq.
Qed.

(** C6, as stated, fails on the live path: the first quote ever of
    ["AAPL"] is stored with the change 5 of the message, not 0, and the
    next one, 10 above it, with the change 1 of the message, not 10. *)
Lemma live_quote_keeps_sent_fields :
  exists st1 st2 q1 q2,
    latestPrices (initial true) !! "AAPL" = None /\
    onMessage (Some (priceUpdate [mkQuote "AAPL" 200 5 1 "t0"])) (initial true)
      = Done st1 /\
    latestPrices st1 !! "AAPL" = Some q1 /\
    (change q1 =? 0)%float = false /\ (percentChange q1 =? 0)%float = false /\
    onMessage (Some (priceUpdate [mkQuote "AAPL" 210 1 7 "t1"])) st1 = Done st2 /\
    latestPrices st2 !! "AAPL" = Some q2 /\
    (change q2 =? price q2 - price q1)%float = false /\
    (percentChange q2 =? change q2 / price q1 * 100)%float = false.
Proof.
  do 2 eexists. exists (mkQuote "AAPL" 200 5 1 "t0"), (mkQuote "AAPL" 210 1 7 "t1").
  split; [reflexivity|].
  split; [rewrite onMessage_priceUpdate; reflexivity|].
  split; [reflexivity|]. split; [reflexivity|]. split; [reflexivity|].
  split; [rewrite onMessage_priceUpdate; reflexivity|].
  split; [reflexivity|]. split; reflexivity.
Qed.

(** ** Selecting a symbol *)

Lemma clickRow_history (sym : string) (st : State) :
  chartHistory (clickRow sym st) =
    match chart st, latestPrices st !! sym with
    | Some _, Some data => [mkPoint (ts data) (price data)]
    | _, _ => []
    end.
Proof.
  unfold clickRow. rewrite updateChart_history. cbn.
  destruct (chart st); [|reflexivity]. by destruct (latestPrices st !! sym).
Qed.

(** C8, as the code has it. There is one history buffer. A click on the
    row of [sym] selects [sym] and replaces the buffer: it is left empty
    when there is no chart (or no quote of [sym]), and otherwise holds the
    one point of the latest quote of [sym]; nothing of the points gathered
    before the click stays in the state, which is the same whatever they
    were. *)
Theorem selection_replaces_history (st : State) (sym : string) :
  chartSymbol (clickRow sym st) = sym /\
  chartHistory (clickRow sym st) =
    match chart st, latestPrices st !! sym with
    | Some _, Some data => [mkPoint (ts data) (price data)]
    | _, _ => []
    end /\
  (List.length (chartHistory (clickRow sym st)) <= 1)%nat /\
  (forall h : list HistoryPoint, clickRow sym (set_chartHistory h st) = clickRow sym st).
Proof.
  split.
  { unfold clickRow, updateChart. cbn. destruct (chart st); [|reflexivity].
    by destruct (latestPrices st !! sym). }
  split; [apply clickRow_history|]. split.
  - rewrite clickRow_history. destruct (chart st); [|simpl; lia].
    destruct (latestPrices st !! sym); simpl; lia.
  - intros h. reflexivity.
Qed.

(** C8, as stated, fails: after two messages the buffer holds two points
    of ["AAPL"]; a click on ["TSLA"] leaves in it the point of the latest
    ["TSLA"] quote, so it is not empty, and neither the buffer nor the
    chart holds a point of ["AAPL"] any more; a click back on ["AAPL"]
    finds one point, not the two gathered before. *)
Lemma selection_drops_previous_history :
  exists st,
    run [Message (Some (priceUpdate [mkQuote "AAPL" 200 0 0 "t0";
                                     mkQuote "TSLA" 300 0 0 "t0"]));
         Message (Some (priceUpdate [mkQuote "AAPL" 201 1 0.5 "t1"]))]
        (initial true) = Some st /\
    chartSymbol st = "AAPL" /\
    chartHistory st = [mkPoint "t0" 200; mkPoint "t1" 201] /\
    chartHistory (clickRow "TSLA" st) = [mkPoint "t0" 300] /\
    chartHistory (clickRow "TSLA" st) <> [] /\
    chart (clickRow "TSLA" st) = Some (mkChart ["t0"] [300%float]) /\
    clickRow "TSLA" st = clickRow "TSLA" (set_chartHistory [] st) /\
    chartHistory (clickRow "AAPL" (clickRow "TSLA" st)) = [mkPoint "t1" 201].
Proof.
  eexists. split.
  { cbn [run step]. rewrite onMessage_priceUpdate. cbn [after].
    rewrite onMessage_priceUpdate. reflexivity. }
  split; [reflexivity|]. split; [reflexivity|]. split; [reflexivity|].
  split; [discriminate|]. split; [reflexivity|]. split; reflexivity.
Qed.

(** ** A tick on a store that lacks a tracked symbol *)

(** C9, at its failing input. One live message brings a quote for
    ["AAPL"] alone, then the socket closes: the store is not empty, so
    [startMockFeed] seeds nothing and starts the interval; its first tick
    finds no quote for ["TSLA"] and throws. *)
Theorem tick_throws_on_partial_store :
  exists st st',
    run [Message (Some (priceUpdate [mkQuote "AAPL" 200 0 0 "t0"])); Close "t1"]
        (initial true) = Some st /\
    usingMockFeed st = true /\
    count isSetInterval (log st) = 1%nat /\
    latestPrices st !! "AAPL" = Some (mkQuote "AAPL" 200 0 0 "t0") /\
    latestPrices st !! "TSLA" = None /\
    tick "t2" (fun _ => 0.5%float) st = Threw "TypeError" st'.
Proof.
  do 2 eexists. split.
  { cbn [run step]. rewrite onMessage_priceUpdate. reflexivity. }
  split; [reflexivity|]. split; [reflexivity|]. split; [reflexivity|].
  split; [reflexivity|]. vm_compute. reflexivity.
Qed.

(** After a fallback on an empty store every tracked symbol has a quote,
    so the ticks that follow run to their end. *)
Lemma startMockFeed_complete (now : string) (st : State) :
  size (latestPrices st) = 0%nat ->
  forall sym, sym ∈ TRACKED_SYMBOLS ->
    is_Some (latestPrices (startMockFeed now st) !! sym).
Proof.
  intros Hsize sym Hin. apply list_elem_of_lookup_1 in Hin as [i Hi].
  exists (seedQuote now i sym). by apply startMockFeed_seeds.
Qed.

(** ** The theorems at concrete inputs *)

(** The tick callback for ["TSLA"], seeded at 150, with the draw 0.9: the
    delta is 1.6000000000000001, the change 1.5999999999999943, and the
    alert goes up. *)
Lemma alert_check_live_and_mock_witness :
  "TSLA" ∈ TRACKED_SYMBOLS /\
  exists st',
    tickSymbol "t1" 0.9 "TSLA" (startMockFeed "t0" (initial true)) = Done st' /\
    exists emitted,
      log st' = log (startMockFeed "t0" (initial true)) ++ emitted /\
      alertChecked (Some (seedQuote "t0" 1 "TSLA"))
        (tickQuote "t1" 0.9 "TSLA" (seedQuote "t0" 1 "TSLA")) emitted.
Proof.
  assert (Hin : "TSLA" ∈ TRACKED_SYMBOLS)
    by (apply (bool_decide_unpack _); vm_compute; exact I).
  split; [exact Hin|].
  pose proof (proj2 (alert_check_live_and_mock (startMockFeed "t0" (initial true)))
                "t1" 0.9%float "TSLA" Hin) as H.
  change (latestPrices (startMockFeed "t0" (initial true)) !! "TSLA")
    with (Some (seedQuote "t0" 1 "TSLA")) in H.
  destruct H as (st' & emitted & Hrun & _ & Hlog & Hchk).
  exists st'. split; [exact Hrun|]. exists emitted. split; [exact Hlog | exact Hchk].
Defined.

(** An entry for ["GOOG"] after the mock feed has seeded the store: the
    rows of the table are the same. *)
Lemma untracked_entry_stored_witness :
  (symbol (mkQuote "GOOG" 10 0 0 "t0") ∉ TRACKED_SYMBOLS) /\
  symbol (mkQuote "GOOG" 10 0 0 "t0") <> "__proto__" /\
  stocksRows (onItem (mkQuote "GOOG" 10 0 0 "t0") (startMockFeed "t0" (initial true)))
    = stocksRows (startMockFeed "t0" (initial true)).
Proof.
  assert (H : symbol (mkQuote "GOOG" 10 0 0 "t0") ∉ TRACKED_SYMBOLS)
    by (apply (bool_decide_unpack _); vm_compute; exact I).
  assert (H' : symbol (mkQuote "GOOG" 10 0 0 "t0") <> "__proto__") by discriminate.
  split; [exact H|]. split; [exact H'|].
  exact (proj1 (proj2 (proj2 (proj2
    (untracked_entry_stored (startMockFeed "t0" (initial true))
       (mkQuote "GOOG" 10 0 0 "t0") H H'))))).
Defined.

(** A close, an error and a second close on the fresh page: one interval,
    one switch of the status. *)
Lemma fallback_exactly_once_witness :
  usingMockFeed (initial true) = false /\
  exists st',
    run [Close "t1"; Error "t1"; Close "t2"] (initial true) = Some st' /\
    usingMockFeed st' = true /\
    count isSetInterval (log st') = 1%nat /\
    count isFallbackStatus (log st') = 1%nat.
Proof.
  split; [reflexivity|].
  destruct (fallback_exactly_once (initial true) [Close "t1"; Error "t1"; Close "t2"])
    as (st' & Hrun & Hmock & Htimers & Hstatus & _);
    [reflexivity | discriminate | reflexivity |].
  exists st'. split; [exact Hrun|]. split; [exact Hmock|].
  split; [exact Htimers | exact Hstatus].
Defined.

(** A point recorded on a full buffer: the oldest of the 20 is gone, the
    new one is last. *)
Lemma history_bounded_fifo_witness :
  chartHistory
    (updateChart "AAPL"
       (set_chartHistory (replicate 20 (mkPoint "t0" 1))
          (onItem (mkQuote "AAPL" 200 0 0 "t1") (initial true))))
  = replicate 19 (mkPoint "t0" 1) ++ [mkPoint "t1" 200].
Proof.
  apply (proj1 (proj2 history_bounded_fifo)
           (set_chartHistory (replicate 20 (mkPoint "t0" 1))
              (onItem (mkQuote "AAPL" 200 0 0 "t1") (initial true)))
           "AAPL" (mkChart [] []) (mkQuote "AAPL" 200 0 0 "t1")).
  - reflexivity.
  - reflexivity.
  - simpl. lia.
Defined.


(** The seeded quote of ["NVDA"]. *)
Lemma derived_fields_by_path_witness :
  exists q, latestPrices (startMockFeed "t0" (initial true)) !! "NVDA" = Some q /\
            change q = 0%float /\ percentChange q = 0%float.
Proof.
  apply (proj1 derived_fields_by_path "t0" (initial true) "NVDA").
  - reflexivity.
  - apply (bool_decide_unpack _). vm_compute. exact I.
Defined.

(** The fresh page: no quote of the selected symbol yet. *)
Lemma updateChart_without_quote_witness :
  latestPrices (initial true) !! chartSymbol (initial true) = None /\
  updateChart (chartSymbol (initial true)) (initial true) = initial true.
Proof.
  split; [reflexivity|].
  apply (updateChart_without_quote (initial true) (chartSymbol (initial true))).
  reflexivity.
Defined.

(** ** The alert scenarios of the specification, run *)

(** A first quote of ["AAPL"] at 200: stored, no alert. *)
Example scenario_first_quote :
  log (onItem (mkQuote "AAPL" 200 0 0 "t0") (initial true)) = [] /\
  latestPrices (onItem (mkQuote "AAPL" 200 0 0 "t0") (initial true)) !! "AAPL"
    = Some (mkQuote "AAPL" 200 0 0 "t0").
Proof. by split. Qed.

(** 200 then 202: the difference 2 is over the threshold, an alert up at 202. *)
Example scenario_alert_up :
  log (onItem (mkQuote "AAPL" 202 2 1 "t1")
         (onItem (mkQuote "AAPL" 200 0 0 "t0") (initial true)))
    = [AddRecentAlert "AAPL" up 202].
Proof. reflexivity. Qed.

(** 200 then 201: the difference 1 is under the threshold, no alert. *)
Example scenario_below_threshold :
  log (onItem (mkQuote "AAPL" 201 1 0.5 "t1")
         (onItem (mkQuote "AAPL" 200 0 0 "t0") (initial true)))
    = [].
Proof. reflexivity. Qed.

(** 200 then 198.5: the difference is the threshold itself, an alert down. *)
Example scenario_alert_down_at_threshold :
  log (onItem (mkQuote "AAPL" 198.5 (-1.5) (-0.75) "t1")
         (onItem (mkQuote "AAPL" 200 0 0 "t0") (initial true)))
    = [AddRecentAlert "AAPL" down 198.5].
Proof. reflexivity. Qed.

(** The doubles 0.2 then 1.7: as doubles subtract, [1.7 - 0.2] is 1.5,
    and the alert is raised. *)
Example scenario_doubles_at_threshold :
  (1.7 - 0.2 =? 1.5)%float = true /\
  log (onItem (mkQuote "AAPL" 1.7 1.5 750 "t1")
         (onItem (mkQuote "AAPL" 0.2 0 0 "t0") (initial true)))
    = [AddRecentAlert "AAPL" up 1.7].
Proof. split; reflexivity. Qed.

(** A tick on 3.1 with the draw 0.875, so the delta 1.5: the change, as
    doubles subtract, is 1.4999999999999996 and no alert is raised. *)
Example scenario_tick_below_threshold :
  tickQuote "t1" 0.875 "AAPL" (mkQuote "AAPL" 3.1 0 0 "t0")
    = mkQuote "AAPL" (3.1 + 1.5) 1.4999999999999996 (1.4999999999999996 / 3.1 * 100) "t1" /\
  tickSymbol "t1" 0.875 "AAPL" (onItem (mkQuote "AAPL" 3.1 0 0 "t0") (initial true))
    = Done (set_latestPrices
              (<["AAPL" := tickQuote "t1" 0.875 "AAPL" (mkQuote "AAPL" 3.1 0 0 "t0")]>
                 (latestPrices (onItem (mkQuote "AAPL" 3.1 0 0 "t0") (initial true))))
              (onItem (mkQuote "AAPL" 3.1 0 0 "t0") (initial true))).
Proof. split; reflexivity. Qed.

(** A tick with the draw 0.25 on a price of 150: the percent change is
    the double nearest to -2/3; on a price of 0 with the draw 0.75 it is
    an infinity. *)
Example scenario_tick_percent :
  tickQuote "t1" 0.25 "TSLA" (mkQuote "TSLA" 150 0 0 "t0")
    = mkQuote "TSLA" 149 (-1) (-0.6666666666666667) "t1" /\
  tickQuote "t1" 0.75 "TSLA" (mkQuote "TSLA" 0 0 0 "t0")
    = mkQuote "TSLA" 1 1 infinity "t1".
Proof. split; reflexivity. Qed.

(** * Further properties of the code *)

(** ** The recent alerts card *)

Lemma trimAlerts_take (turns : nat) (children : list AlertChild) :
  (List.length children <= turns + 6)%nat -> trimAlerts turns children = take 6 children.
Proof.
  revert children. induction turns as [|turns IH]; intros children H; simpl.
  - symmetry. apply take_ge. lia.
  - destruct (Nat.ltb_spec 6 (List.length children)) as [Hlt|Hle].
    + rewrite IH.
      * rewrite removelast_firstn_len, take_take. f_equal. lia.
      * rewrite removelast_firstn_len, length_take. lia.
    + symmetry. apply take_ge. lia.
Qed.

Lemma removePlaceholder_none (children : list AlertChild) :
  forallb (fun c => negb (isPlaceholder c)) children = true ->
  removePlaceholder children = children.
Proof.
  induction children as [|c children IH]; [reflexivity|]. simpl.
  intros H. apply andb_true_iff in H as [Hc H].
  destruct (isPlaceholder c); [discriminate Hc|]. by rewrite IH.
Qed.

Lemma addRecentAlertCard_take (formatTime : string -> string) (c : AlertCall)
    (children : list AlertChild) :
  addRecentAlertCard formatTime (ac_now c) (ac_sym c) (ac_dir c) (ac_price c) (ac_at c)
                     children
  = take 6 (alertItemOf formatTime c :: removePlaceholder children).
Proof.
  unfold addRecentAlertCard. cbn zeta. apply trimAlerts_take.
  apply Nat.le_add_r.
Qed.

(** X1. One call of [addRecentAlert], on any children: the loop ends, the
    card has the new alert first, then what was there without its first
    placeholder, cut to six children in all. *)
Theorem addRecentAlert_newest_first_six (formatTime : string -> string)
    (c : AlertCall) (children : list AlertChild) :
  let card := addRecentAlertCard formatTime (ac_now c) (ac_sym c) (ac_dir c)
                                 (ac_price c) (ac_at c) children in
  card = take 6 (alertItemOf formatTime c :: removePlaceholder children) /\
  head card = Some (alertItemOf formatTime c) /\
  (List.length card <= 6)%nat.
Proof.
  cbn zeta. rewrite addRecentAlertCard_take. split; [reflexivity|].
  split; [reflexivity|]. rewrite length_take. lia.
Qed.

Lemma take_app_take {A} (n : nat) (l1 l2 : list A) :
  take n (l1 ++ take n l2) = take n (l1 ++ l2).
Proof.
  rewrite !take_app, take_take. do 2 f_equal. lia.
Qed.

Lemma addRecentAlerts_cons (formatTime : string -> string) (c : AlertCall)
    (calls : list AlertCall) (children : list AlertChild) :
  addRecentAlerts formatTime (c :: calls) children
  = addRecentAlerts formatTime calls
      (take 6 (alertItemOf formatTime c :: removePlaceholder children)).
Proof. rewrite <- addRecentAlertCard_take. reflexivity. Qed.

Lemma addRecentAlerts_clean (formatTime : string -> string) (calls : list AlertCall) :
  forall children : list AlertChild,
    forallb (fun c => negb (isPlaceholder c)) children = true ->
    (List.length children <= 6)%nat ->
    addRecentAlerts formatTime calls children
    = take 6 (rev (map (alertItemOf formatTime) calls) ++ children).
Proof.
  induction calls as [|c calls IH]; intros children Hclean Hlen.
  - simpl. symmetry. apply take_ge. lia.
  - rewrite addRecentAlerts_cons, removePlaceholder_none by exact Hclean.
    rewrite IH.
    + change (alertItemOf formatTime c :: children)
        with ([alertItemOf formatTime c] ++ children).
      rewrite take_app_take. cbn [map rev]. by rewrite <- app_assoc.
    + destruct children as [|x1 [|x2 [|x3 [|x4 [|x5 [|x6 rest]]]]]]; try exact Hclean.
      cbn [take]. cbn [forallb] in *. rewrite !andb_true_iff in *.
      cbn. tauto.
    + rewrite length_take. lia.
Qed.

(** X2. The card after [initRecentAlertsCard] and any run of at least one
    call of [addRecentAlert]: the placeholder is gone, and the children
    are the alerts of the last six calls, the newest first. *)
Theorem recent_alerts_newest_six (formatTime : string -> string)
    (calls : list AlertCall) :
  calls <> [] ->
  let card := addRecentAlerts formatTime calls initRecentAlertsCard in
  card = take 6 (rev (map (alertItemOf formatTime) calls)) /\
  forallb (fun c => negb (isPlaceholder c)) card = true /\
  (List.length card = Nat.min 6 (List.length calls))%nat.
Proof.
  intros Hne. destruct calls as [|c calls]; [done|]. cbn zeta.
  assert (E : addRecentAlerts formatTime (c :: calls) initRecentAlertsCard
              = take 6 (rev (map (alertItemOf formatTime) (c :: calls)))).
  { rewrite addRecentAlerts_cons.
    change (removePlaceholder initRecentAlertsCard) with (@nil AlertChild).
    rewrite addRecentAlerts_clean; [|reflexivity|simpl; lia].
    rewrite take_app_take. reflexivity. }
  rewrite E. split; [reflexivity|]. split.
  - apply forallb_forall. intros x Hx. apply list_elem_of_In in Hx.
    apply elem_of_take in Hx as (i & Hx & _).
    apply list_elem_of_lookup_2, list_elem_of_In in Hx.
    apply in_rev, in_map_iff in Hx as (c' & <- & _). reflexivity.
  - rewrite length_take, length_rev, length_map. reflexivity.
Qed.

(** The first alert of a page replaces the placeholder; the seventh pushes
    the first out. *)
Lemma recent_alerts_newest_six_witness :
  addRecentAlerts (fun t => t)
    [mkAlertCall "t1" "AAPL" up 202 None] initRecentAlertsCard
  = [AlertItem "AAPL" up 202 "t1"].
Proof.
  apply (recent_alerts_newest_six (fun t => t) [mkAlertCall "t1" "AAPL" up 202 None]).
  discriminate.
Defined.

(** ** The stocks table *)

Lemma rows_symbols (st : State) (syms : list string) :
  map row_symbol (omap (rowOf st) syms)
  = filter (fun s => is_Some (latestPrices st !! s)) syms.
Proof.
  induction syms as [|s syms IH]; [reflexivity|].
  rewrite filter_cons. cbn [omap list_omap]. unfold rowOf at 1.
  destruct (latestPrices st !! s) as [data|] eqn:E.
  - rewrite decide_True by eauto. cbn [map row_symbol]. f_equal. exact IH.
  - rewrite decide_False by (intros [x Hx]; discriminate Hx). exact IH.
Qed.

Lemma rows_content (st : State) (syms : list string) (r : Row) :
  r ∈ omap (rowOf st) syms ->
  exists data,
    row_symbol r ∈ syms /\
    latestPrices st !! row_symbol r = Some data /\
    r = mkRow (row_symbol r) (bool_decide (row_symbol r = chartSymbol st))
              (0 <=? change data)%float
              (price data) (change data) (percentChange data) (ts data).
Proof.
  intros Hr. apply list_elem_of_omap in Hr as (s & Hs & Hrow).
  unfold rowOf in Hrow. destruct (latestPrices st !! s) as [data|] eqn:E; [|discriminate].
  injection Hrow as <-. exists data. cbn [row_symbol]. by split.
Qed.

Lemma stocks_table_rows_aux (st : State) :
  map row_symbol (stocksRows st)
    = filter (fun s => is_Some (latestPrices st !! s)) TRACKED_SYMBOLS /\
  NoDup (map row_symbol (stocksRows st)).
Proof.
  assert (E := rows_symbols st TRACKED_SYMBOLS). fold (stocksRows st) in E.
  split; [exact E|]. rewrite E. apply NoDup_filter, TRACKED_SYMBOLS_NoDup.
Qed.

(** X3. The table that [renderStocksTable] draws has one row for each
    tracked symbol that has a quote, in the order of [TRACKED_SYMBOLS], and
    no other row: at most four rows, no symbol twice, none for a symbol
    that is not tracked. Each row shows the stored quote of its symbol, as
    going up exactly when the change is not negative. *)
Theorem stocks_table_rows (st : State) :
  map row_symbol (stocksRows st)
    = filter (fun s => is_Some (latestPrices st !! s)) TRACKED_SYMBOLS /\
  NoDup (map row_symbol (stocksRows st)) /\
  (List.length (stocksRows st) <= 4)%nat /\
  (forall r, r ∈ stocksRows st ->
     row_symbol r ∈ TRACKED_SYMBOLS /\
     exists data,
       latestPrices st !! row_symbol r = Some data /\
       row_price r = price data /\ row_change r = change data /\
       row_percentChange r = percentChange data /\ row_ts r = ts data /\
       (row_isUp r = true <-> (0 <=? change data)%float = true)).
Proof.
  assert (E := rows_symbols st TRACKED_SYMBOLS). fold (stocksRows st) in E.
  split; [exact E|]. split; [|split].
  - rewrite E. apply NoDup_filter, TRACKED_SYMBOLS_NoDup.
  - rewrite <- (length_map row_symbol), E.
    etransitivity; [apply length_filter|]. reflexivity.
  - intros r Hr. destruct (rows_content st TRACKED_SYMBOLS r Hr) as (data & Hin & Hd & Hrow).
    split; [exact Hin|]. exists data. split; [exact Hd|].
    rewrite Hrow. cbn. repeat split; try reflexivity; by intros H.
Qed.

Lemma filter_absent {A B} `{EqDecision B} (f : A -> B) (b : B) (l : list A) :
  b ∉ map f l -> filter (fun x => f x = b) l = [].
Proof.
  induction l as [|x l IH]; intros Hb; [reflexivity|].
  cbn [map] in Hb. apply not_elem_of_cons in Hb as [Hne Hb].
  rewrite filter_cons, decide_False by congruence. by apply IH.
Qed.

Lemma filter_at_most_one {A B} `{EqDecision B} (f : A -> B) (b : B) (l : list A) :
  NoDup (map f l) -> (List.length (filter (fun x => f x = b) l) <= 1)%nat.
Proof.
  induction l as [|x l IH]; intros Hnd; [simpl; lia|].
  cbn [map] in Hnd. apply NoDup_cons in Hnd as [Hx Hnd].
  rewrite filter_cons. case_decide as Hfx; [|by apply IH].
  rewrite filter_absent by congruence. simpl. lia.
Qed.

Lemma filter_present {A B} `{EqDecision B} (f : A -> B) (b : B) (l : list A) :
  b ∈ map f l -> (1 <= List.length (filter (fun x => f x = b) l))%nat.
Proof.
  induction l as [|x l IH]; intros Hb; [by apply elem_of_nil in Hb|].
  rewrite filter_cons. case_decide as Hfx; [simpl; lia|].
  cbn [map] in Hb. apply elem_of_cons in Hb as [Hb|Hb]; [congruence | by apply IH].
Qed.

(** X4. In the table a row is marked as selected exactly when its symbol
    is [chartSymbol]; so at most one row is, and one is when the selected
    symbol is tracked and has a quote. *)
Theorem stocks_table_selected_row (st : State) :
  (forall r, r ∈ stocksRows st ->
     (row_selected r = true <-> row_symbol r = chartSymbol st)) /\
  (List.length (filter (fun r => row_symbol r = chartSymbol st) (stocksRows st)) <= 1)%nat /\
  (rowDrawn st (chartSymbol st) ->
   List.length (filter (fun r => row_symbol r = chartSymbol st) (stocksRows st)) = 1%nat).
Proof.
  destruct (stocks_table_rows_aux st) as [E Hnd].
  split; [|split].
  - intros r Hr. destruct (rows_content st TRACKED_SYMBOLS r Hr) as (data & _ & _ & Hrow).
    rewrite Hrow. cbn. apply bool_decide_eq_true.
  - by apply filter_at_most_one.
  - intros [Htracked Hstored].
    pose proof (filter_at_most_one row_symbol (chartSymbol st) (stocksRows st) Hnd).
    pose proof (filter_present row_symbol (chartSymbol st) (stocksRows st)) as Hge.
    assert (chartSymbol st ∈ map row_symbol (stocksRows st)).
    { rewrite E. apply list_elem_of_filter. by split. }
    specialize (Hge H0). lia.
Qed.

(** ** What every handler keeps of the store *)

Section StoreInvariant.

(** A property of the store that survives storing a quote under its own
    symbol. *)
Variable Inv : gmap string Quote -> Prop.
Hypothesis Inv_insert : forall m q, Inv m -> Inv (<[symbol q := q]> m).

Lemma onItems_Inv (items : list Quote) (st : State) :
  Inv (latestPrices st) ->
  Inv (latestPrices (foldl (fun s item => onItem item s) st items)).
Proof.
  revert st. induction items as [|item items IH]; intros st H; [exact H|].
  simpl. apply IH. rewrite onItem_latestPrices. by apply Inv_insert.
Qed.

Lemma seedEach_Inv (now : string) (syms : list string) :
  forall (idx : nat) (m : gmap string Quote), Inv m -> Inv (seedEach now idx syms m).
Proof.
  induction syms as [|sym syms IH]; intros idx m H; [exact H|].
  simpl. apply IH. exact (Inv_insert m (seedQuote now idx sym) H).
Qed.

Lemma startMockFeed_Inv (now : string) (st : State) :
  Inv (latestPrices st) -> Inv (latestPrices (startMockFeed now st)).
Proof.
  intros H. unfold startMockFeed. cbn [latestPrices emit].
  change (latestPrices (setWsStatus "error" "LIVE DATA: DEMO"
                          (set_usingMockFeed true st)))
    with (latestPrices st).
  destruct (size (latestPrices st) =? 0)%nat; [|exact H].
  rewrite updateChart_latestPrices.
  cbn [latestPrices renderStocksTable emit set_latestPrices].
  by apply seedEach_Inv.
Qed.

Lemma tickSymbol_Inv (now : string) (r : float) (sym : string) (st st' : State) :
  after (tickSymbol now r sym st) = Some st' ->
  Inv (latestPrices st) -> Inv (latestPrices st').
Proof.
  destruct (latestPrices st !! sym) as [p|] eqn:Hp.
  - destruct (tickSymbol_Some now r sym st p Hp) as (st1 & Hrun & Hm & _).
    rewrite Hrun. intros [= <-] H. rewrite Hm.
    exact (Inv_insert (latestPrices st) (tickQuote now r sym p) H).
  - unfold tickSymbol. rewrite Hp. by intros [= <-].
Qed.

Lemma tickEach_Inv (now : string) (rnd : nat -> float) (syms : list string) :
  forall (idx : nat) (st st' : State),
    after (tickEach now rnd idx syms st) = Some st' ->
    Inv (latestPrices st) -> Inv (latestPrices st').
Proof.
  induction syms as [|sym syms IH]; intros idx st st'; simpl.
  - by intros [= <-].
  - destruct (tickSymbol now (rnd idx) sym st) as [st1|err st1|] eqn:E;
      intros Hrun H.
    + apply (IH _ _ _ Hrun). apply (tickSymbol_Inv now (rnd idx) sym st st1); [|exact H].
      by rewrite E.
    + apply (tickSymbol_Inv now (rnd idx) sym st st'); [|exact H].
      by rewrite E.
    + discriminate Hrun.
Qed.

Lemma step_Inv (a : Action) (st st' : State) :
  after (step a st) = Some st' -> Inv (latestPrices st) -> Inv (latestPrices st').
Proof.
  intros Hstep H. destruct a as [throws now| |parsed|now|now|now rnd|sym];
    simpl in Hstep.
  - injection Hstep as <-. unfold connectWebSocket.
    destruct throws; [by apply startMockFeed_Inv | exact H].
  - by injection Hstep as <-.
  - unfold onMessage in Hstep.
    destruct parsed as [msg|]; [|by injection Hstep as <-].
    assert (Hmsg :
      after (if negb (isPriceUpdate (getProp "type" msg)) then Done st
             else match getProp "data" msg with
                  | Some (JArr items) =>
                      match mapM asQuote items with
                      | Some quotes =>
                          let st1 := foldl (fun s item => onItem item s) st quotes in
                          Done (updateChart (chartSymbol st1) (renderStocksTable st1))
                      | None => IllTyped
                      end
                  | _ => Threw "TypeError" st
                  end) = Some st' ->
      Inv (latestPrices st')).
    { destruct (negb _); [by intros [= <-]|].
      destruct (getProp "data" msg) as [[| | | |items|]|];
        try (by intros [= <-]).
      destruct (mapM asQuote items) as [quotes|]; [|discriminate].
      intros [= <-]. rewrite updateChart_latestPrices. cbn.
      by apply onItems_Inv. }
    destruct msg; exact (Hmsg Hstep).
  - injection Hstep as <-. unfold onClose.
    destruct (negb _); [by apply startMockFeed_Inv | exact H].
  - injection Hstep as <-. unfold onError.
    destruct (negb _); [by apply startMockFeed_Inv | exact H].
  - unfold tick in Hstep.
    destruct (tickEach now rnd 0 TRACKED_SYMBOLS st) as [st1|err st1|] eqn:E;
      simpl in Hstep; [| |discriminate].
    + injection Hstep as <-. rewrite updateChart_latestPrices. cbn.
      apply (tickEach_Inv now rnd TRACKED_SYMBOLS 0 st st1); [|exact H].
      by rewrite E.
    + injection Hstep as <-.
      apply (tickEach_Inv now rnd TRACKED_SYMBOLS 0 st st1); [|exact H].
      by rewrite E.
  - injection Hstep as <-. unfold clickRow. rewrite updateChart_latestPrices.
    exact H.
Qed.

Lemma run_Inv (acts : list Action) :
  forall st st' : State,
    run acts st = Some st' -> Inv (latestPrices st) -> Inv (latestPrices st').
Proof.
  induction acts as [|a acts IH]; intros st st'; simpl.
  - by intros [= <-].
  - destruct (after (step a st)) as [st1|] eqn:E; [|discriminate].
    intros Hrun H. apply (IH st1 st' Hrun). exact (step_Inv a st st1 E H).
Qed.

End StoreInvariant.

(** X5. In every state the page can reach, each quote of the store is
    kept under its own symbol: every handler that writes the store writes
    a quote under the [symbol] that the quote carries. *)
Theorem store_keys_are_symbols (st : State) :
  reachable st ->
  forall k q, latestPrices st !! k = Some q -> symbol q = k.
Proof.
  induction 1 as [hasChart|a st st' _ IH Hstep].
  - intros k q H. cbn [latestPrices initial] in H. by rewrite lookup_empty in H.
  - revert IH.
    apply (step_Inv (fun m => forall k q, m !! k = Some q -> symbol q = k))
      with (a := a); [|exact Hstep].
    intros m q0 Hm k q Hk. destruct (decide (symbol q0 = k)) as [<-|Hne].
    + rewrite lookup_insert_eq in Hk. congruence.
    + rewrite lookup_insert_ne in Hk by exact Hne. by apply Hm.
Qed.

(** X6. No handler removes a quote: a symbol that has a quote has one
    after every handler, returned or thrown, and after every run of
    handlers. *)
Theorem store_never_forgets (acts : list Action) (st st' : State) (k : string) :
  run acts st = Some st' ->
  is_Some (latestPrices st !! k) -> is_Some (latestPrices st' !! k).
Proof.
  apply (run_Inv (fun m => is_Some (m !! k))).
  intros m q Hm. destruct (decide (symbol q = k)) as [<-|Hne].
  - rewrite lookup_insert_eq. eauto.
  - by rewrite lookup_insert_ne.
Qed.

(** ** Runs of ticks *)

Lemma complete_insert (m : gmap string Quote) (q : Quote) :
  (forall sym, sym ∈ TRACKED_SYMBOLS -> is_Some (m !! sym)) ->
  forall sym, sym ∈ TRACKED_SYMBOLS -> is_Some (<[symbol q := q]> m !! sym).
Proof.
  intros H sym Hin. destruct (decide (symbol q = sym)) as [<-|Hne].
  - rewrite lookup_insert_eq. eauto.
  - rewrite lookup_insert_ne by exact Hne. by apply H.
Qed.

(** X7. Once every tracked symbol has a quote, as after a fallback on the
    fresh page, the ticks never throw: any run of ticks, with any draws,
    has all its ticks return, and leaves a quote for every tracked
    symbol. *)
Theorem ticks_run_on_complete_store (acts : list Action) (st : State) :
  (forall sym, sym ∈ TRACKED_SYMBOLS -> is_Some (latestPrices st !! sym)) ->
  forallb isTick acts = true ->
  forallb isDone (outcomes acts st) = true /\
  List.length (outcomes acts st) = List.length acts /\
  exists st',
    run acts st = Some st' /\
    forall sym, sym ∈ TRACKED_SYMBOLS -> is_Some (latestPrices st' !! sym).
Proof.
  revert st. induction acts as [|a acts IH]; intros st Hall Hticks.
  - split; [reflexivity|]. split; [reflexivity|]. by exists st.
  - cbn [forallb] in Hticks. apply andb_true_iff in Hticks as [Ha Hticks].
    destruct a as [| | | | |now rnd|]; try discriminate Ha.
    destruct (tick_Done now rnd st Hall) as (st1 & Hrun & _).
    assert (Hall1 : forall sym, sym ∈ TRACKED_SYMBOLS -> is_Some (latestPrices st1 !! sym)).
    { apply (step_Inv (fun m => forall sym, sym ∈ TRACKED_SYMBOLS -> is_Some (m !! sym))
               complete_insert (Tick now rnd) st st1); [|exact Hall].
      cbn [step]. by rewrite Hrun. }
    destruct (IH st1 Hall1 Hticks) as (Hdone & Hlen & st' & Hrest & Hall').
    cbn [outcomes run step]. rewrite Hrun. cbn [after forallb isDone List.length].
    split; [exact Hdone|]. split; [by rewrite Hlen|]. by exists st'.
Qed.

Lemma tickEach_Threw_keeps (now : string) (rnd : nat -> float) (syms : list string) :
  forall (idx : nat) (st : State) (sym : string),
    sym ∈ syms -> latestPrices st !! sym = None ->
    exists st' l,
      tickEach now rnd idx syms st = Threw "TypeError" st' /\
      latestPrices st' !! sym = None /\
      log st' = log st ++ l /\ forallb isAddRecentAlert l = true /\
      chart st' = chart st /\ chartSymbol st' = chartSymbol st /\
      chartHistory st' = chartHistory st /\ usingMockFeed st' = usingMockFeed st.
Proof.
  induction syms as [|sym0 syms IH]; intros idx st sym Hin Hnone.
  { by apply elem_of_nil in Hin. }
  simpl. destruct (latestPrices st !! sym0) as [p0|] eqn:Hp0.
  - destruct (tickSymbol_Some now (rnd idx) sym0 st p0 Hp0)
      as (st1 & Hrun & Hm & Hc & Hs & Hh & Hu & Hlog).
    rewrite Hrun.
    destruct (IH (S idx) st1 sym) as (st' & l & Hthrew & Hkeep & Hlog' & Hl & Hc' & Hs' & Hh' & Hu').
    + apply elem_of_cons in Hin as [->|Hin]; [congruence | exact Hin].
    + rewrite Hm. rewrite lookup_insert_ne; [exact Hnone | congruence].
    + exists st'. eexists. split; [exact Hthrew|]. split; [exact Hkeep|].
      split; [rewrite Hlog', Hlog, <- app_assoc; reflexivity|].
      split; [|repeat split; congruence].
      rewrite forallb_app, Hl, andb_true_r. by destruct (_ <=? _)%float.
  - exists st, []. unfold tickSymbol. rewrite Hp0, app_nil_r. by repeat split.
Qed.

(** X8. A tick that finds a tracked symbol without a quote throws, and
    nothing in a tick gives that symbol a quote: every tick of a run of
    ticks throws, the symbol stays without a quote, and all that the run
    adds to the log are alerts, with no table drawn and no chart point
    recorded. *)
Theorem tick_failure_persists (acts : list Action) (st : State) (sym : string) :
  sym ∈ TRACKED_SYMBOLS -> latestPrices st !! sym = None ->
  forallb isTick acts = true ->
  forallb isThrew (outcomes acts st) = true /\
  List.length (outcomes acts st) = List.length acts /\
  exists st' l,
    run acts st = Some st' /\
    latestPrices st' !! sym = None /\
    log st' = log st ++ l /\ forallb isAddRecentAlert l = true /\
    chart st' = chart st /\ chartHistory st' = chartHistory st.
Proof.
  intros Hin. revert st. induction acts as [|a acts IH]; intros st Hnone Hticks.
  - split; [reflexivity|]. split; [reflexivity|]. exists st, [].
    rewrite app_nil_r. by repeat split.
  - cbn [forallb] in Hticks. apply andb_true_iff in Hticks as [Ha Hticks].
    destruct a as [| | | | |now rnd|]; try discriminate Ha.
    destruct (tickEach_Threw_keeps now rnd TRACKED_SYMBOLS 0 st sym Hin Hnone)
      as (st1 & l1 & Hthrew & Hkeep & Hlog1 & Hl1 & Hc1 & _ & Hh1 & _).
    assert (Htick : tick now rnd st = Threw "TypeError" st1)
      by (unfold tick; by rewrite Hthrew).
    destruct (IH st1 Hkeep Hticks)
      as (Hall & Hlen & st' & l & Hrun & Hkeep' & Hlog & Hl & Hc & Hh).
    cbn [outcomes run step]. rewrite Htick. cbn [after forallb isThrew List.length].
    split; [exact Hall|]. split; [by rewrite Hlen|].
    exists st', (l1 ++ l). split; [exact Hrun|]. split; [exact Hkeep'|].
    split; [rewrite Hlog, Hlog1, <- app_assoc; reflexivity|].
    split; [by rewrite forallb_app, Hl1, Hl|]. split; congruence.
Qed.

(** ** The price floor of the mock feed *)




(** ** A whole live message *)

Lemma onItems_frame (items : list Quote) (st : State) :
  chart (foldl (fun s item => onItem item s) st items) = chart st /\
  chartSymbol (foldl (fun s item => onItem item s) st items) = chartSymbol st /\
  usingMockFeed (foldl (fun s item => onItem item s) st items) = usingMockFeed st.
Proof.
  revert st. induction items as [|item items IH]; intros st; [done|].
  simpl. destruct (IH (onItem item st)) as (-> & -> & ->). apply onItem_frame.
Qed.

Lemma onItems_lookup (items : list Quote) (st : State) (sym : string) :
  latestPrices (foldl (fun s item => onItem item s) st items) !! sym
  = match lastFor sym items with
    | Some q => Some q
    | None => latestPrices st !! sym
    end.
Proof.
  unfold lastFor. induction items as [|item items IH] using rev_ind; [reflexivity|].
  rewrite foldl_app, filter_app. cbn [foldl]. rewrite onItem_latestPrices.
  rewrite filter_cons, filter_nil. case_decide as Hs.
  - rewrite last_snoc. subst sym. apply lookup_insert_eq.
  - rewrite app_nil_r, lookup_insert_ne by exact Hs. exact IH.
Qed.

(** X10. A message of well-formed entries is run to its end, and within it
    the last entry of a symbol wins: after the message the store holds,
    for every symbol, the last entry that the payload has for it, and the
    quote it held before when the payload has none. *)
Theorem message_last_entry_wins (quotes : list Quote) (st : State) :
  exists st',
    onMessage (Some (priceUpdate quotes)) st = Done st' /\
    forall sym,
      latestPrices st' !! sym
      = match lastFor sym quotes with
        | Some q => Some q
        | None => latestPrices st !! sym
        end.
Proof.
  rewrite onMessage_priceUpdate. eexists. split; [reflexivity|].
  intros sym. rewrite updateChart_latestPrices. cbn [latestPrices renderStocksTable emit].
  apply onItems_lookup.
Qed.

(** X11. A message records one chart point at most, however many entries
    it has: when there is a chart and the selected symbol has a quote
    after the message, the point of that quote (the last entry for the
    selected symbol, or the quote stored before when the payload has none,
    as with an empty payload) is pushed on the history; otherwise the
    history stays as it was. Earlier entries of the selected symbol in the
    same message never reach the chart. *)
Theorem message_one_chart_point (quotes : list Quote) (st : State) :
  exists st',
    onMessage (Some (priceUpdate quotes)) st = Done st' /\
    chartSymbol st' = chartSymbol st /\
    chartHistory st'
    = match chart st,
            match lastFor (chartSymbol st) quotes with
            | Some q => Some q
            | None => latestPrices st !! chartSymbol st
            end
      with
      | Some _, Some data =>
          pushPoint (chartHistory st) (mkPoint (ts data) (price data))
      | _, _ => chartHistory st
      end.
Proof.
  rewrite onMessage_priceUpdate. eexists. split; [reflexivity|]. cbn zeta.
  destruct (onItems_frame quotes st) as (Hc & Hs & _).
  split.
  - unfold updateChart. cbn [chart chartSymbol latestPrices renderStocksTable emit].
    rewrite Hc, Hs. destruct (chart st); [|exact Hs].
    by destruct (_ !! _).
  - rewrite updateChart_history.
    cbn [chart chartSymbol chartHistory latestPrices renderStocksTable emit].
    rewrite Hc, Hs, onItems_chartHistory, onItems_lookup. reflexivity.
Qed.

Lemma json_null_or (msg : Json) : msg = JNull \/ msg <> JNull.
Proof. destruct msg; (by left) || (by right). Qed.

(** X12. Payloads with entries that are not quotes aside (they are
    [IllTyped] here; an entry for ["__proto__"] with further fields is
    one), the message listener throws in two cases only, and
    then before it has stored or drawn anything: the parsed value is
    [null], or it is a ["price_update"] whose [data] is not an array. The
    state is the one before the message. *)
Theorem message_throws_before_any_update (parsed : option Json) (st : State) :
  ((exists err st', onMessage parsed st = Threw err st') <->
   (parsed = Some JNull \/
    exists msg, parsed = Some msg /\ isPriceUpdate (getProp "type" msg) = true /\
                forall items, getProp "data" msg <> Some (JArr items)))
  /\
  (forall err st', onMessage parsed st = Threw err st' -> err = "TypeError" /\ st' = st).
Proof.
  assert (Hshape : forall msg, msg <> JNull ->
            onMessage (Some msg) st =
              if negb (isPriceUpdate (getProp "type" msg)) then Done st
              else match getProp "data" msg with
                   | Some (JArr items) =>
                       match mapM asQuote items with
                       | Some quotes =>
                           let st1 := foldl (fun s item => onItem item s) st quotes in
                           Done (updateChart (chartSymbol st1) (renderStocksTable st1))
                       | None => IllTyped
                       end
                   | _ => Threw "TypeError" st
                   end).
  { intros msg Hmsg. by destruct msg. }
  split; [split|].
  - intros (err & st' & H). destruct parsed as [msg|]; [|discriminate H].
    destruct (json_null_or msg) as [->|Hmsg]; [by left|]. right.
    exists msg. split; [reflexivity|]. rewrite (Hshape msg Hmsg) in H.
    destruct (isPriceUpdate (getProp "type" msg)); [|discriminate H].
    split; [reflexivity|]. intros items Hd. rewrite Hd in H. simpl in H.
    by destruct (mapM asQuote items).
  - intros [-> | (msg & -> & Htype & Hdata)]; [by exists "TypeError", st|].
    exists "TypeError", st.
    destruct (json_null_or msg) as [->|Hmsg]; [reflexivity|].
    rewrite (Hshape msg Hmsg), Htype. simpl.
    destruct (getProp "data" msg) as [[| | | |items|]|]; try reflexivity.
    by destruct (Hdata items).
  - intros err st' H. destruct parsed as [msg|]; [|discriminate H].
    destruct (json_null_or msg) as [->|Hmsg]; [by injection H as <- <-|].
    rewrite (Hshape msg Hmsg) in H.
    destruct (negb _); [discriminate H|].
    destruct (getProp "data" msg) as [[| | | |items|]|];
      try (by injection H as <- <-).
    by destruct (mapM asQuote items).
Qed.

(** ** Starting the mock feed *)



(** ** The chart and the history *)




(** ** The status pill *)

Lemma elem_of_classAdd (c x : string) (l : list string) :
  c ∈ classAdd x l <-> c = x \/ c ∈ l.
Proof.
  unfold classAdd. case_bool_decide as Hx.
  - split; [by right|]. intros [->|H]; assumption.
  - rewrite elem_of_app, list_elem_of_singleton. tauto.
Qed.

Lemma elem_of_classRemove (c : string) (cs l : list string) :
  c ∈ classRemove cs l <-> (c ∉ cs) /\ (c ∈ l).
Proof. unfold classRemove. by rewrite list_elem_of_filter. Qed.

Lemma setWsStatusPill_classes (state text : string) (pill : Pill) :
  ("pill-connected" ∈ classList (setWsStatusPill state text pill)
     <-> state = "connected") /\
  ("pill-disconnected" ∈ classList (setWsStatusPill state text pill)
     <-> state = "error") /\
  (forall c, c <> "pill-connected" -> c <> "pill-disconnected" ->
     (c ∈ classList (setWsStatusPill state text pill) <-> c ∈ classList pill)) /\
  textContent (setWsStatusPill state text pill) = text.
Proof.
  unfold setWsStatusPill. cbn [classList textContent].
  set (l := classRemove ["pill-connected"; "pill-disconnected"] (classList pill)).
  assert (Hc : "pill-connected" ∉ l).
  { intros H. apply elem_of_classRemove in H as [H _]. apply H. set_solver. }
  assert (Hd : "pill-disconnected" ∉ l).
  { intros H. apply elem_of_classRemove in H as [H _]. apply H. set_solver. }
  assert (Hother : forall c, c <> "pill-connected" -> c <> "pill-disconnected" ->
                     (c ∈ l <-> c ∈ classList pill)).
  { intros c H1 H2. unfold l. rewrite elem_of_classRemove. split; [tauto|].
    intros H. split; [|exact H]. intros Hin.
    apply elem_of_cons in Hin as [Hin|Hin]; [done|].
    apply elem_of_cons in Hin as [Hin|Hin]; [done|]. by apply elem_of_nil in Hin. }
  destruct (String.eqb_spec state "connected") as [->|Hs1];
    [|destruct (String.eqb_spec state "error") as [->|Hs2]].
  - split; [rewrite elem_of_classAdd; tauto|].
    split; [rewrite elem_of_classAdd; split; [intros [H|H]; [discriminate | done] | discriminate]|].
    split; [|reflexivity]. intros c H1 H2. rewrite elem_of_classAdd, <- Hother by done. tauto.
  - split; [rewrite elem_of_classAdd; split; [intros [H|H]; [discriminate | done] | discriminate]|].
    split; [rewrite elem_of_classAdd; tauto|].
    split; [|reflexivity]. intros c H1 H2. rewrite elem_of_classAdd, <- Hother by done. tauto.
  - split; [tauto|]. split; [tauto|]. split; [exact Hother | reflexivity].
Qed.

(** X15. [setWsStatus] leaves the pill with the class [pill-connected]
    exactly for the state ["connected"] and with [pill-disconnected]
    exactly for ["error"], so never with both, whatever classes it had; its
    other classes are kept and its text is the text given. *)
Theorem setWsStatus_one_class (state text : string) (pill : Pill) :
  ("pill-connected" ∈ classList (setWsStatusPill state text pill)
     <-> state = "connected") /\
  ("pill-disconnected" ∈ classList (setWsStatusPill state text pill)
     <-> state = "error") /\
  ~ ("pill-connected" ∈ classList (setWsStatusPill state text pill) /\
     "pill-disconnected" ∈ classList (setWsStatusPill state text pill)) /\
  (forall c, c <> "pill-connected" -> c <> "pill-disconnected" ->
     (c ∈ classList (setWsStatusPill state text pill) <-> c ∈ classList pill)) /\
  textContent (setWsStatusPill state text pill) = text.
Proof.
  destruct (setWsStatusPill_classes state text pill) as (Hc & Hd & Ho & Ht).
  split; [exact Hc|]. split; [exact Hd|]. split; [|by split].
  intros [H1 H2]. apply Hc in H1. apply Hd in H2. congruence.
Qed.

Lemma statusEffects_app (l1 l2 : list Effect) :
  statusEffects (l1 ++ l2) = statusEffects l1 ++ statusEffects l2.
Proof. apply omap_app. Qed.

Lemma quietStep_trans (s1 s2 s3 : State) :
  quietStep s1 s2 -> quietStep s2 s3 -> quietStep s1 s3.
Proof. intros [H1 H2] [H3 H4]. split; congruence. Qed.

Lemma updateChart_quiet (sym : string) (st : State) : quietStep st (updateChart sym st).
Proof.
  unfold updateChart. destruct (chart st); [|done].
  destruct (latestPrices st !! sym); [|done].
  split; [reflexivity|]. cbn [log emit]. rewrite statusEffects_app. cbn.
  by rewrite app_nil_r.
Qed.

Lemma renderStocksTable_quiet (st : State) : quietStep st (renderStocksTable st).
Proof.
  split; [reflexivity|]. cbn [log renderStocksTable emit].
  rewrite statusEffects_app. cbn. by rewrite app_nil_r.
Qed.

Lemma onItems_quiet (items : list Quote) (st : State) :
  quietStep st (foldl (fun s item => onItem item s) st items).
Proof.
  revert st. induction items as [|item items IH]; intros st; [done|].
  simpl. apply quietStep_trans with (onItem item st); [|apply IH].
  split; [apply onItem_frame|]. rewrite onItem_log, statusEffects_app.
  destruct (latestPrices st !! symbol item); [|by rewrite app_nil_r].
  destruct (_ <=? _)%float; cbn; by rewrite app_nil_r.
Qed.

Lemma tickEach_quiet (now : string) (rnd : nat -> float) (syms : list string) :
  forall (idx : nat) (st st' : State),
    after (tickEach now rnd idx syms st) = Some st' -> quietStep st st'.
Proof.
  induction syms as [|sym syms IH]; intros idx st st'; simpl.
  - by intros [= <-].
  - destruct (latestPrices st !! sym) as [p|] eqn:Hp.
    + destruct (tickSymbol_Some now (rnd idx) sym st p Hp)
        as (st1 & Hrun & _ & _ & _ & _ & Hu & Hlog).
      rewrite Hrun. intros H. apply quietStep_trans with st1; [|by apply (IH (S idx))].
      split; [exact Hu|]. rewrite Hlog, statusEffects_app.
      destruct (_ <=? _)%float; cbn; by rewrite app_nil_r.
    + unfold tickSymbol. rewrite Hp. by intros [= <-].
Qed.

Lemma startMockFeed_status (now : string) (st : State) :
  usingMockFeed (startMockFeed now st) = true /\
  statusEffects (log (startMockFeed now st))
  = statusEffects (log st) ++ [("error", "LIVE DATA: DEMO")].
Proof.
  split; [apply startMockFeed_usingMockFeed|]. unfold startMockFeed.
  set (st1 := setWsStatus "error" "LIVE DATA: DEMO" (set_usingMockFeed true st)).
  assert (H1 : statusEffects (log st1)
               = statusEffects (log st) ++ [("error", "LIVE DATA: DEMO")]).
  { unfold st1. cbn [log setWsStatus emit set_usingMockFeed].
    by rewrite statusEffects_app. }
  cbn [log emit]. rewrite statusEffects_app. cbn [statusEffects omap list_omap statusOf].
  rewrite app_nil_r. destruct (size (latestPrices st1) =? 0)%nat; [|exact H1].
  set (st' := set_latestPrices _ st1).
  destruct (updateChart_quiet (chartSymbol st') (renderStocksTable st')) as [_ ->].
  destruct (renderStocksTable_quiet st') as [_ ->]. exact H1.
Qed.

Lemma statusAgrees_quiet (st st' : State) :
  quietStep st st' -> statusAgrees st -> statusAgrees st'.
Proof. intros [Hu Hs] [H1 H2]. unfold statusAgrees. rewrite Hu, Hs. by split. Qed.

Lemma statusAgrees_startMockFeed (now : string) (st : State) :
  statusAgrees (startMockFeed now st).
Proof.
  destruct (startMockFeed_status now st) as [Hu Hs]. unfold statusAgrees.
  rewrite Hu, Hs, last_snoc. split; [done | discriminate].
Qed.

Lemma statusAgrees_step (a : Action) (st st' : State) :
  after (step a st) = Some st' -> statusAgrees st -> statusAgrees st'.
Proof.
  intros Hstep H. destruct a as [throws now| |parsed|now|now|now rnd|sym];
    simpl in Hstep.
  - injection Hstep as <-. unfold connectWebSocket.
    destruct throws; [apply statusAgrees_startMockFeed | exact H].
  - injection Hstep as <-. unfold statusAgrees, onOpen.
    cbn [usingMockFeed log setWsStatus emit set_usingMockFeed].
    rewrite statusEffects_app. cbn [statusEffects omap list_omap statusOf].
    rewrite last_snoc. split; [discriminate | by right].
  - destruct parsed as [msg|]; [|by injection Hstep as <-].
    destruct (json_null_or msg) as [->|Hmsg]; [by injection Hstep as <-|].
    assert (E : onMessage (Some msg) st =
              if negb (isPriceUpdate (getProp "type" msg)) then Done st
              else match getProp "data" msg with
                   | Some (JArr items) =>
                       match mapM asQuote items with
                       | Some quotes =>
                           let st1 := foldl (fun s item => onItem item s) st quotes in
                           Done (updateChart (chartSymbol st1) (renderStocksTable st1))
                       | None => IllTyped
                       end
                   | _ => Threw "TypeError" st
                   end) by (by destruct msg).
    rewrite E in Hstep. clear E.
    destruct (negb _); [by injection Hstep as <-|].
    destruct (getProp "data" msg) as [[| | | |items|]|];
      try (by injection Hstep as <-).
    destruct (mapM asQuote items) as [quotes|]; [|discriminate].
    injection Hstep as <-. revert H. apply statusAgrees_quiet.
    eapply quietStep_trans; [apply onItems_quiet|].
    eapply quietStep_trans; [apply renderStocksTable_quiet | apply updateChart_quiet].
  - injection Hstep as <-. unfold onClose.
    destruct (negb _); [apply statusAgrees_startMockFeed | exact H].
  - injection Hstep as <-. unfold onError.
    destruct (negb _); [apply statusAgrees_startMockFeed | exact H].
  - unfold tick in Hstep.
    destruct (tickEach now rnd 0 TRACKED_SYMBOLS st) as [st1|err st1|] eqn:E;
      simpl in Hstep; [| |discriminate].
    + injection Hstep as <-. revert H. apply statusAgrees_quiet.
      eapply quietStep_trans;
        [apply (tickEach_quiet now rnd TRACKED_SYMBOLS 0); by rewrite E|].
      eapply quietStep_trans; [apply renderStocksTable_quiet | apply updateChart_quiet].
    + injection Hstep as <-. revert H. apply statusAgrees_quiet.
      apply (tickEach_quiet now rnd TRACKED_SYMBOLS 0). by rewrite E.
  - injection Hstep as <-. revert H. apply statusAgrees_quiet. unfold clickRow.
    eapply quietStep_trans; [|apply updateChart_quiet].
    eapply quietStep_trans; [|apply renderStocksTable_quiet].
    split; [reflexivity|]. cbn [log emit set_chartHistory set_chartSymbol].
    rewrite statusEffects_app. cbn. by rewrite app_nil_r.
Qed.

Lemma pillAfter_last (l : list Effect) (pill : Pill) (state text : string) :
  last (statusEffects l) = Some (state, text) ->
  exists pill', pillAfter l pill = setWsStatusPill state text pill'.
Proof.
  intros H. apply last_Some in H as [l' Hl]. unfold pillAfter. rewrite Hl, foldl_app.
  eexists. reflexivity.
Qed.

(** X16. The pill follows the flag. On a page whose pill starts without
    the class [pill-disconnected], in every state the page can reach the
    pill has that class exactly when [usingMockFeed] is set, and then its
    text is ["LIVE DATA: DEMO"] and it has not the class [pill-connected]. *)
Theorem pill_follows_mock_flag (st : State) (pill : Pill) :
  reachable st -> "pill-disconnected" ∉ classList pill ->
  (usingMockFeed st = true <-> "pill-disconnected" ∈ classList (pillAfter (log st) pill)) /\
  (usingMockFeed st = true ->
   textContent (pillAfter (log st) pill) = "LIVE DATA: DEMO" /\
   "pill-connected" ∉ classList (pillAfter (log st) pill)).
Proof.
  intros Hreach Hpill.
  assert (Hagree : statusAgrees st).
  { induction Hreach as [hasChart|a st st' _ IH Hstep].
    - split; [discriminate | by left].
    - exact (statusAgrees_step a st st' Hstep IH). }
  destruct Hagree as [Hon Hoff].
  destruct (usingMockFeed st) eqn:Hu.
  - destruct (pillAfter_last (log st) pill _ _ (Hon eq_refl)) as [pill' ->].
    destruct (setWsStatusPill_classes "error" "LIVE DATA: DEMO" pill')
      as (Hc & Hd & _ & Ht).
    split; [split; [intros _; by apply Hd | done]|].
    intros _. split; [exact Ht|]. intros H. apply Hc in H. discriminate H.
  - split; [|discriminate]. split; [discriminate|]. intros H. exfalso.
    destruct (Hoff eq_refl) as [Hnone|Hconn].
    + apply last_None in Hnone. unfold pillAfter in H. rewrite Hnone in H.
      by apply Hpill.
    + destruct (pillAfter_last (log st) pill _ _ Hconn) as [pill' E].
      rewrite E in H.
      destruct (setWsStatusPill_classes "connected" "LIVE DATA: CONNECTED" pill')
        as (_ & Hd & _).
      apply Hd in H. discriminate H.
Qed.

(** ** The theme *)

Lemma toggleTheme_next (pg : ThemePage) :
  toggleTheme pg
  = if String.eqb (orDark (dataTheme pg)) "dark"
    then mkThemePage (Some "light") "Light mode" (Some "light")
    else mkThemePage (Some "dark") "Dark mode" (Some "dark").
Proof. unfold toggleTheme, applyTheme. by destruct (String.eqb _ "dark"). Qed.

(** X17. A click on the theme button sets the theme to ["light"] when the
    page is dark (or has no theme, or an empty one) and to ["dark"] from
    anything else, whatever string that is; it saves the theme it sets,
    and the button reads ["Dark mode"] exactly for the dark theme. From
    then on the clicks alternate: a third click gives what the first
    gave. *)
Theorem theme_toggle (pg : ThemePage) :
  (orDark (dataTheme pg) = "dark" ->
   toggleTheme pg = mkThemePage (Some "light") "Light mode" (Some "light")) /\
  (orDark (dataTheme pg) <> "dark" ->
   toggleTheme pg = mkThemePage (Some "dark") "Dark mode" (Some "dark")) /\
  storedTheme (toggleTheme pg) = dataTheme (toggleTheme pg) /\
  (toggleText (toggleTheme pg) = "Dark mode" <-> dataTheme (toggleTheme pg) = Some "dark") /\
  toggleTheme (toggleTheme (toggleTheme pg)) = toggleTheme pg.
Proof.
  rewrite !toggleTheme_next.
  destruct (String.eqb_spec (orDark (dataTheme pg)) "dark") as [E|E].
  - split; [done|]. split; [done|]. split; [done|]. by split.
  - split; [done|]. split; [done|]. split; [done|]. by split.
Qed.

(** X18. The saved theme comes back on the next load: [initTheme] on a
    page whose store holds what a click saved sets the theme and the
    button text that the click had set, and writes nothing to the store.
    With no saved theme, or an empty one, it sets ["dark"]; any other
    saved string is set as it is, and read as a light theme by the
    button. *)
Theorem theme_restored_on_load (pg : ThemePage) :
  (forall clicked : ThemePage,
     storedTheme pg = storedTheme (toggleTheme clicked) ->
     dataTheme (initTheme pg) = dataTheme (toggleTheme clicked) /\
     toggleText (initTheme pg) = toggleText (toggleTheme clicked)) /\
  storedTheme (initTheme pg) = storedTheme pg /\
  (storedTheme pg = None \/ storedTheme pg = Some "" ->
   dataTheme (initTheme pg) = Some "dark" /\ toggleText (initTheme pg) = "Dark mode") /\
  (forall s, storedTheme pg = Some s -> s <> "" -> s <> "dark" ->
     dataTheme (initTheme pg) = Some s /\ toggleText (initTheme pg) = "Light mode").
Proof.
  split; [|split; [reflexivity|split]].
  - intros clicked. rewrite toggleTheme_next. unfold initTheme, applyTheme.
    destruct (String.eqb (orDark (dataTheme clicked)) "dark"); cbn; by intros ->.
  - unfold initTheme, applyTheme. by intros [-> | ->].
  - intros s Hs Hne Hnd. unfold initTheme, applyTheme. rewrite Hs. cbn.
    destruct (String.eqb_spec s "") as [->|_]; [done|].
    destruct (String.eqb_spec s "dark") as [->|_]; [done|]. by split.
Qed.

(** ** The alert rules list *)

Lemma truthy_JStr (s : string) : s <> "" -> truthy (Some (JStr s)) = true.
Proof. intros H. cbn. by destruct (String.eqb_spec s ""). Qed.

Lemma orElse_truthy (a b : option Json) : truthy a = true -> orElse a b = a.
Proof. intros H. unfold orElse. by rewrite H. Qed.

Lemma converts_orElse (a b : option Json) :
  converts a = true -> converts b = true -> converts (orElse a b) = true.
Proof. unfold orElse. by destruct (truthy a). Qed.

Lemma converts_coalesce (a b : option Json) :
  converts a = true -> converts b = true -> converts (coalesce a b) = true.
Proof. unfold coalesce. by destruct (nullish a). Qed.

(** A note or an id is converted only when it is shown. *)
Lemma converts_shown (v : option Json) :
  converts v = true -> converts (if truthy v then v else None) = true.
Proof. by destruct (truthy v). Qed.

(** What does not convert is an object or an array, and so truthy. *)
Lemma toStringThrows_truthy (v : Json) :
  toStringThrows v = true -> truthy (Some v) = true.
Proof. by destruct v. Qed.

Lemma renderSingleRule_not_null (rule : Json) :
  rule <> JNull ->
  renderSingleRule rule =
    (let get k := getProp k rule in
     let symbol := orElse (get "symbol") (orElse (get "ticker") (Some (JStr "N/A"))) in
     let direction :=
       orElse (get "direction")
         (orElse (get "condition")
            (orElse (get "operator")
               (Some (JStr (if truthy (get "above") then "above"
                            else if truthy (get "below") then "below"
                            else ""))))) in
     let threshold :=
       coalesce (get "threshold")
         (coalesce (get "price")
            (coalesce (get "target_price")
               (coalesce (get "trigger_price") (Some (JStr ""))))) in
     let active := coalesce (get "active") (coalesce (get "is_active") (Some (JBool true))) in
     let sendWebex :=
       coalesce (get "webex_enabled")
         (coalesce (get "send_webex") (coalesce (get "notify") (Some (JBool false)))) in
     let note := if truthy (get "note") then get "note" else None in
     let id := if truthy (get "id") then get "id" else None in
     let view dir :=
       Rendered (mkRuleView symbol dir threshold (truthy active) (truthy sendWebex)
                   note id) in
     if negb (converts symbol && converts threshold && converts note && converts id)
     then RuleThrew "TypeError"
     else if truthy direction then
       match direction with
       | Some (JStr s) => view s
       | _ => RuleThrew "TypeError"
       end
     else view "").
Proof. intros H. by destruct rule. Qed.

(** X19. A rule that has the plain fields ([symbol] and [direction]
    non-empty strings, [threshold], [active] and [webex_enabled] set and
    not [null]), and whose threshold, note and id convert to a string, is
    shown by the plain fields, whatever it has under the other names that
    [renderSingleRule] accepts: an [active] or [webex_enabled] of [false],
    or a [threshold] of 0, is not replaced by an alias. *)
Theorem rule_plain_fields_win (rule : Json) (s d : string) (t a w : Json) :
  getProp "symbol" rule = Some (JStr s) -> s <> "" ->
  getProp "direction" rule = Some (JStr d) -> d <> "" ->
  getProp "threshold" rule = Some t -> t <> JNull -> toStringThrows t = false ->
  getProp "active" rule = Some a -> a <> JNull ->
  getProp "webex_enabled" rule = Some w -> w <> JNull ->
  converts (getProp "note" rule) = true -> converts (getProp "id" rule) = true ->
  renderSingleRule rule
  = Rendered (mkRuleView (Some (JStr s)) d (Some t) (truthy (Some a)) (truthy (Some w))
                (if truthy (getProp "note" rule) then getProp "note" rule else None)
                (if truthy (getProp "id" rule) then getProp "id" rule else None)).
Proof.
  intros Hs Hs' Hd Hd' Ht Ht' Ht'' Ha Ha' Hw Hw' Hnote Hid.
  assert (Hn : forall v, v <> JNull -> nullish (Some v) = false)
    by (intros v Hv; by destruct v).
  rewrite renderSingleRule_not_null by (intros ->; discriminate Hs). cbv beta zeta.
  rewrite Hs, Hd, Ht, Ha, Hw. unfold orElse, coalesce.
  rewrite (truthy_JStr s Hs'), (truthy_JStr d Hd').
  rewrite (Hn t Ht'), (Hn a Ha'), (Hn w Hw').
  rewrite (converts_shown _ Hnote), (converts_shown _ Hid).
  cbn [converts toStringThrows negb andb]. rewrite Ht''. cbn [negb andb].
  rewrite (truthy_JStr d Hd'). reflexivity.
Qed.

(** The third of the static rules: notifications off stays off, the note
    and the id are shown. *)
Lemma rule_plain_fields_win_witness :
  renderSingleRule
    (JObj [("id", JNum 3); ("symbol", JStr "NVDA"); ("direction", JStr "above");
           ("threshold", JNum 1000); ("active", JBool true);
           ("webex_enabled", JBool false); ("send_webex", JBool true);
           ("note", JStr "High priority")])
  = Rendered (mkRuleView (Some (JStr "NVDA")) "above" (Some (JNum 1000)) true false
                (Some (JStr "High priority")) (Some (JNum 3))).
Proof.
  apply (rule_plain_fields_win
           (JObj [("id", JNum 3); ("symbol", JStr "NVDA"); ("direction", JStr "above");
                  ("threshold", JNum 1000); ("active", JBool true);
                  ("webex_enabled", JBool false); ("send_webex", JBool true);
                  ("note", JStr "High priority")])
           "NVDA" "above" (JNum 1000) (JBool true) (JBool false));
    (reflexivity || discriminate).
Defined.

(** X20. [renderSingleRule] throws a [TypeError] on [null]; on a rule
    whose [direction] is truthy and not a string (a number, [true], an
    array, an object): [toUpperCase] is not there to call; and on a rule
    whose [note] or [id] does not convert to a string (an object with an
    own [toString], or an array that holds one). It renders every other
    rule whose [direction], [condition] and [operator] are each missing,
    falsy or a string, and whose fields under the names of the symbol,
    the threshold, the note and the id all convert to a string. *)
Theorem rule_direction_must_be_string (rule : Json) :
  (rule = JNull -> renderSingleRule rule = RuleThrew "TypeError") /\
  (forall v, getProp "direction" rule = Some v -> truthy (Some v) = true ->
     (forall s, v <> JStr s) -> renderSingleRule rule = RuleThrew "TypeError") /\
  (forall k v, k ∈ ["note"; "id"] -> getProp k rule = Some v ->
     toStringThrows v = true -> renderSingleRule rule = RuleThrew "TypeError") /\
  (rule <> JNull ->
   (forall k v, k ∈ ["direction"; "condition"; "operator"] ->
      getProp k rule = Some v ->
      truthy (Some v) = false \/ exists s, v = JStr s) ->
   (forall k, k ∈ ["symbol"; "ticker"; "threshold"; "price"; "target_price";
                   "trigger_price"; "note"; "id"] ->
      converts (getProp k rule) = true) ->
   exists view, renderSingleRule rule = Rendered view).
Proof.
  split; [by intros ->|]. split; [|split].
  - intros v Hv Ht Hns.
    rewrite renderSingleRule_not_null by (intros ->; discriminate Hv). cbv beta zeta.
    destruct (negb _); [reflexivity|]. rewrite Hv.
    rewrite (orElse_truthy (Some v)) by exact Ht. rewrite Ht.
    destruct v; try reflexivity; try discriminate Ht. by destruct (Hns s).
  - intros k v Hk Hv Hthrows.
    rewrite renderSingleRule_not_null by (intros ->; discriminate Hv). cbv beta zeta.
    pose proof (toStringThrows_truthy v Hthrows) as Htruthy.
    apply elem_of_cons in Hk as [->|Hk]; [|apply list_elem_of_singleton in Hk as ->].
    + rewrite Hv, Htruthy. cbn [converts]. rewrite Hthrows. cbn [negb].
      by rewrite !andb_false_r.
    + rewrite Hv, Htruthy. cbn [converts]. rewrite Hthrows. cbn [negb].
      by rewrite !andb_false_r.
  - intros Hnull Hstr Hconv.
    assert (Hshape : forall k, k ∈ ["direction"; "condition"; "operator"] ->
              forall rest, (truthy rest = false \/ exists s, rest = Some (JStr s)) ->
              truthy (orElse (getProp k rule) rest) = false \/
              exists s, orElse (getProp k rule) rest = Some (JStr s)).
    { intros k Hk rest Hrest. unfold orElse.
      destruct (truthy (getProp k rule)) eqn:Et; [|exact Hrest].
      destruct (getProp k rule) as [v|] eqn:Ev; [|discriminate Et].
      destruct (Hstr k v Hk Ev) as [Hf|[s ->]]; [congruence | right; eauto]. }
    rewrite renderSingleRule_not_null by exact Hnull. cbv beta zeta.
    assert (Hin : forall k, k ∈ ["symbol"; "ticker"; "threshold"; "price"; "target_price";
                                 "trigger_price"; "note"; "id"] ->
                    converts (getProp k rule) = true) by exact Hconv.
    rewrite converts_orElse;
      [|apply Hin; compute_done
       |apply converts_orElse; [apply Hin; compute_done | reflexivity]].
    rewrite converts_coalesce;
      [|apply Hin; compute_done
       |apply converts_coalesce;
          [apply Hin; compute_done
          |apply converts_coalesce;
             [apply Hin; compute_done
             |apply converts_coalesce; [apply Hin; compute_done | reflexivity]]]].
    rewrite !converts_shown by (apply Hin; compute_done). cbn [andb negb].
    match goal with
    | |- exists view, (if truthy ?dir then _ else _) = _ =>
        assert (Hdir : truthy dir = false \/ exists s, dir = Some (JStr s))
    end.
    { apply (Hshape "direction"); [compute_done|].
      apply (Hshape "condition"); [compute_done|].
      apply (Hshape "operator"); [compute_done|].
      right; eauto. }
    destruct Hdir as [-> | [str Hdir]]; [eexists; reflexivity|].
    rewrite Hdir. destruct (truthy (Some (JStr str))); eexists; reflexivity.
Qed.

(** A rule whose id is an object with an own [toString]. *)
Example rule_id_not_convertible :
  renderSingleRule (JObj [("symbol", JStr "AAPL"); ("id", JObj [("toString", JNum 1)])])
  = RuleThrew "TypeError".
Proof. reflexivity. Qed.

(** The three static rules are rendered, in order, and none throws. *)
Example loadAlertRules_static :
  loadAlertRules
  = ([mkRuleView (Some (JStr "AAPL")) "above" (Some (JNum 200)) true true None
        (Some (JNum 1));
      mkRuleView (Some (JStr "TSLA")) "above" (Some (JNum 180)) true true None
        (Some (JNum 2));
      mkRuleView (Some (JStr "NVDA")) "above" (Some (JNum 1000)) true false
        (Some (JStr "High priority")) (Some (JNum 3))],
     None).
Proof. reflexivity. Qed.

(** ** One interval *)

Lemma count_snoc_other (f : Effect -> bool) (l : list Effect) (e : Effect) :
  f e = false -> count f (l ++ [e]) = count f l.
Proof. intros H. rewrite count_app. unfold count at 2. cbn. rewrite H. cbn. lia. Qed.

Lemma onItems_intervals (items : list Quote) (st : State) :
  count isSetInterval (log (foldl (fun s item => onItem item s) st items))
  = count isSetInterval (log st).
Proof.
  revert st. induction items as [|item items IH]; intros st; [reflexivity|].
  simpl. rewrite IH, onItem_log, count_app.
  destruct (latestPrices st !! symbol item); [|cbn; lia].
  destruct (_ <=? _)%float; cbn; lia.
Qed.

Lemma updateChart_intervals (sym : string) (st : State) :
  count isSetInterval (log (updateChart sym st)) = count isSetInterval (log st).
Proof.
  destruct (updateChart_log sym st) as (l & -> & Hl & _). rewrite count_app, Hl. lia.
Qed.

Lemma tickEach_intervals (now : string) (rnd : nat -> float) (syms : list string) :
  forall (idx : nat) (st st' : State),
    after (tickEach now rnd idx syms st) = Some st' ->
    count isSetInterval (log st') = count isSetInterval (log st).
Proof.
  induction syms as [|sym syms IH]; intros idx st st'; simpl.
  - by intros [= <-].
  - destruct (latestPrices st !! sym) as [p|] eqn:Hp.
    + destruct (tickSymbol_Some now (rnd idx) sym st p Hp)
        as (st1 & Hrun & _ & _ & _ & _ & _ & Hlog).
      rewrite Hrun. intros H. rewrite (IH (S idx) st1 st' H), Hlog, count_app.
      destruct (_ <=? _)%float; cbn; lia.
    + unfold tickSymbol. rewrite Hp. by intros [= <-].
Qed.

(** The count of intervals started is 1 in fallback and 0 before. *)
Lemma one_interval_step (a : Action) (st st' : State) :
  noReopen a = true -> after (step a st) = Some st' ->
  count isSetInterval (log st) = (if usingMockFeed st then 1 else 0)%nat ->
  count isSetInterval (log st') = (if usingMockFeed st' then 1 else 0)%nat.
Proof.
  intros Ha Hstep H. destruct a as [throws now| |parsed|now|now|now rnd|sym];
    try discriminate Ha; simpl in Hstep.
  - destruct parsed as [msg|]; [|by injection Hstep as <-].
    destruct (json_null_or msg) as [->|Hmsg]; [by injection Hstep as <-|].
    assert (E : onMessage (Some msg) st =
              if negb (isPriceUpdate (getProp "type" msg)) then Done st
              else match getProp "data" msg with
                   | Some (JArr items) =>
                       match mapM asQuote items with
                       | Some quotes =>
                           let st1 := foldl (fun s item => onItem item s) st quotes in
                           Done (updateChart (chartSymbol st1) (renderStocksTable st1))
                       | None => IllTyped
                       end
                   | _ => Threw "TypeError" st
                   end) by (by destruct msg).
    rewrite E in Hstep. clear E.
    destruct (negb _); [by injection Hstep as <-|].
    destruct (getProp "data" msg) as [[| | | |items|]|];
      try (by injection Hstep as <-).
    destruct (mapM asQuote items) as [quotes|]; [|discriminate].
    injection Hstep as <-.
    destruct (quietStep_trans _ _ _ (onItems_quiet quotes st)
               (quietStep_trans _ _ _ (renderStocksTable_quiet _)
                  (updateChart_quiet (chartSymbol (foldl (fun s item => onItem item s) st quotes))
                     (renderStocksTable (foldl (fun s item => onItem item s) st quotes)))))
      as [-> _].
    rewrite updateChart_intervals. cbn [log renderStocksTable emit].
    rewrite count_snoc_other by reflexivity. by rewrite onItems_intervals.
  - injection Hstep as <-. unfold onClose. destruct (usingMockFeed st) eqn:Hu; cbn [negb].
    + by rewrite Hu.
    + rewrite startMockFeed_usingMockFeed.
      rewrite (proj1 (startMockFeed_counts now st)), H. reflexivity.
  - injection Hstep as <-. unfold onError. destruct (usingMockFeed st) eqn:Hu; cbn [negb].
    + by rewrite Hu.
    + rewrite startMockFeed_usingMockFeed.
      rewrite (proj1 (startMockFeed_counts now st)), H. reflexivity.
  - unfold tick in Hstep.
    destruct (tickEach now rnd 0 TRACKED_SYMBOLS st) as [st1|err st1|] eqn:E;
      simpl in Hstep; [| |discriminate].
    + injection Hstep as <-.
      assert (Hq : quietStep st st1)
        by (apply (tickEach_quiet now rnd TRACKED_SYMBOLS 0); by rewrite E).
      destruct (quietStep_trans _ _ _ Hq
                 (quietStep_trans _ _ _ (renderStocksTable_quiet st1)
                    (updateChart_quiet (chartSymbol st1) (renderStocksTable st1))))
        as [-> _].
      rewrite updateChart_intervals. cbn [log renderStocksTable emit].
      rewrite count_snoc_other by reflexivity.
      rewrite (tickEach_intervals now rnd TRACKED_SYMBOLS 0 st st1) by (by rewrite E).
      exact H.
    + injection Hstep as <-.
      assert (Hq : quietStep st st1)
        by (apply (tickEach_quiet now rnd TRACKED_SYMBOLS 0); by rewrite E).
      destruct Hq as [-> _].
      rewrite (tickEach_intervals now rnd TRACKED_SYMBOLS 0 st st1) by (by rewrite E).
      exact H.
  - injection Hstep as <-. unfold clickRow.
    assert (Hu : usingMockFeed
                   (updateChart sym
                      (renderStocksTable
                         (emit (SetChartLabel sym)
                            (set_chartHistory [] (set_chartSymbol sym st)))))
                 = usingMockFeed st).
    { unfold updateChart. cbn. destruct (chart st); [|reflexivity].
      by destruct (latestPrices st !! sym). }
    cbn [chartSymbol emit set_chartHistory set_chartSymbol]. rewrite Hu.
    rewrite updateChart_intervals. cbn [log renderStocksTable emit set_chartHistory
                                         set_chartSymbol].
    rewrite !count_snoc_other by reflexivity. exact H.
Qed.

(** X21. However the messages, closes, errors, ticks and clicks of a page
    follow one another, as long as no ["open"] comes in between: at most
    one interval is ever started, and it is started exactly when the page
    has gone to the mock feed. *)
Theorem at_most_one_interval (acts : list Action) (hasChart : bool) (st' : State) :
  forallb noReopen acts = true ->
  run acts (initial hasChart) = Some st' ->
  count isSetInterval (log st') = (if usingMockFeed st' then 1 else 0)%nat /\
  (count isSetInterval (log st') <= 1)%nat.
Proof.
  intros Hacts Hrun.
  assert (Hgen : forall acts st,
            forallb noReopen acts = true -> run acts st = Some st' ->
            count isSetInterval (log st) = (if usingMockFeed st then 1 else 0)%nat ->
            count isSetInterval (log st') = (if usingMockFeed st' then 1 else 0)%nat).
  { clear. induction acts as [|a acts IH]; intros st Hacts Hrun H; simpl in Hrun.
    - by injection Hrun as <-.
    - cbn [forallb] in Hacts. apply andb_true_iff in Hacts as [Ha Hacts].
      destruct (after (step a st)) as [st1|] eqn:E; [|discriminate].
      apply (IH st1 Hacts Hrun). exact (one_interval_step a st st1 Ha E H). }
  assert (E := Hgen acts (initial hasChart) Hacts Hrun eq_refl).
  split; [exact E|]. rewrite E. destruct (usingMockFeed st'); lia.
Qed.

(** A close, a tick, an error and a click on the fresh page. *)
Lemma at_most_one_interval_witness :
  count isSetInterval
    (log (clickRow "TSLA" (onError "t2" (onClose "t0" (initial true))))) = 1%nat.
Proof.
  apply (at_most_one_interval [Close "t0"; Error "t2"; Click "TSLA"] true
           (clickRow "TSLA" (onError "t2" (onClose "t0" (initial true))))).
  - reflexivity.
  - reflexivity.
Defined.

(** ** The further properties at concrete inputs *)

(** The store seeded by a fallback on the fresh page: the quote under
    ["TSLA"] is a quote of ["TSLA"]. *)
Lemma store_keys_are_symbols_witness :
  reachable (onClose "t0" (initial true)) /\
  symbol (seedQuote "t0" 1 "TSLA") = "TSLA".
Proof.
  assert (H : reachable (onClose "t0" (initial true)))
    by exact (reach_step (Close "t0") (initial true) _ (reach_initial true) eq_refl).
  split; [exact H|].
  apply (store_keys_are_symbols (onClose "t0" (initial true)) H "TSLA").
  reflexivity.
Defined.

(** A quote of ["AAPL"] from a live message is still there after the
    socket has closed. *)
Lemma store_never_forgets_witness :
  is_Some (latestPrices (onClose "t1" (onItem (mkQuote "AAPL" 200 0 0 "t0") (initial true)))
             !! "AAPL").
Proof.
  apply (store_never_forgets [Close "t1"]
           (onItem (mkQuote "AAPL" 200 0 0 "t0") (initial true)) _ "AAPL").
  - reflexivity.
  - exists (mkQuote "AAPL" 200 0 0 "t0"). reflexivity.
Defined.

(** Two ticks after a fallback on the fresh page. *)
Lemma ticks_run_on_complete_store_witness :
  forallb isDone
    (outcomes [Tick "t1" (fun _ => 0%float); Tick "t2" (fun _ => 0.99%float)]
              (startMockFeed "t0" (initial true))) = true.
Proof.
  apply (ticks_run_on_complete_store
           [Tick "t1" (fun _ => 0%float); Tick "t2" (fun _ => 0.99%float)]
           (startMockFeed "t0" (initial true))).
  - apply startMockFeed_complete. reflexivity.
  - reflexivity.
Defined.

(** Two ticks after a fallback on a store with ["AAPL"] alone. *)
Lemma tick_failure_persists_witness :
  forallb isThrew
    (outcomes [Tick "t2" (fun _ => 0.5%float); Tick "t3" (fun _ => 0.5%float)]
              (onClose "t1" (onItem (mkQuote "AAPL" 200 0 0 "t0") (initial true))))
  = true.
Proof.
  apply (tick_failure_persists
           [Tick "t2" (fun _ => 0.5%float); Tick "t3" (fun _ => 0.5%float)]
           (onClose "t1" (onItem (mkQuote "AAPL" 200 0 0 "t0") (initial true)))
           "TSLA").
  - apply (bool_decide_unpack _). vm_compute. exact I.
  - reflexivity.
  - reflexivity.
Defined.



(** The pill after a fallback on the fresh page. *)
Lemma pill_follows_mock_flag_witness :
  "pill-disconnected"
    ∈ classList (pillAfter (log (onClose "t0" (initial true))) (mkPill ["pill"] "")).
Proof.
  apply (pill_follows_mock_flag (onClose "t0" (initial true)) (mkPill ["pill"] "")).
  - exact (reach_step (Close "t0") (initial true) _ (reach_initial true) eq_refl).
  - apply (bool_decide_unpack _). vm_compute. exact I.
  - reflexivity.
Defined.
